(** * capmonstercloud-client-js: the HTTP transport and the solve protocol

    A shallow embedding of [HttpClient.ts] (connection handling on one reused
    socket, the validation chain of [postJSON] / [postText], the error
    classes) and of the client that drives [getBalance], [createTask] and
    [getTaskResult] on top of it.

    Conventions of the embedding:
    - a JavaScript string is a [string] holding its UTF-8 bytes;
    - a JavaScript number is an exact decimal [mant * 10 ^ expo];
    - a promise is its settled state; an [async] function is a computation
      in the [Async] monad, which also logs the handlers it enters;
    - the event loop is explicit: a socket event is an argument of [emit]. *)

From Stdlib Require Import ZArith Ascii String List Lia.
From stdpp Require Import base tactics option list strings numbers.

Local Open Scope Z_scope.

(** ** JavaScript values that this code throws, rejects with and tests *)

Module Js.

(** The error classes of [HttpClient.ts], with the two built-in classes they
    are compared with. *)
Inductive ErrorClass : Set :=
| Error
| SyntaxError
| HttpClientError
| HttpSocketError
| HttpStatusError
| HttpContentTypeError
| JSONParseError.

#[global] Instance ErrorClass_eq_dec : EqDecision ErrorClass.
Proof. solve_decision. Defined.

(** [class A extends B]: the parent of each class. *)
Definition superclass (c : ErrorClass) : option ErrorClass :=
  match c with
  | Error => None
  | SyntaxError => Some Error
  | HttpClientError => Some Error
  | HttpSocketError => Some HttpClientError
  | HttpStatusError => Some HttpClientError
  | HttpContentTypeError => Some HttpClientError
  | JSONParseError => Some Error
  end.

(** The prototype chain of a class, the class itself first. No chain of this
    file is longer than three classes; the bound only makes the walk
    structural. *)
Fixpoint chain_from (depth : nat) (c : ErrorClass) : list ErrorClass :=
  match depth with
  | O => []
  | S d => c :: match superclass c with
                | Some p => chain_from d p
                | None => []
                end
  end.

Definition prototype_chain (c : ErrorClass) : list ErrorClass := chain_from 7 c.

Definition extends (c target : ErrorClass) : bool :=
  bool_decide (target ∈ prototype_chain c).

(** An error object raised by the platform ([net], [https], a stream): a plain
    [Error] with a message. *)
Record NodeError : Set := { node_message : string }.

(** What a promise of this code is rejected with: the three errors that the
    file constructs, and what the platform hands to a listener. The file has
    no [new HttpClientError] and no [new HttpSocketError], so no value of
    these two classes arises. *)
Inductive Thrown : Set :=
| Native (err : NodeError)
| NewHttpStatusError (statusMessage : option string) (statusCode : option Z)
| NewHttpContentTypeError (statusMessage : option string) (statusCode : option Z)
| NewJSONParseError (message : string) (responseBody : string)
| Boolean (b : bool)
| Undefined.

Definition class_of (v : Thrown) : option ErrorClass :=
  match v with
  | Native _ => Some Error
  | NewHttpStatusError _ _ => Some HttpStatusError
  | NewHttpContentTypeError _ _ => Some HttpContentTypeError
  | NewJSONParseError _ _ => Some JSONParseError
  | Boolean _ => None
  | Undefined => None
  end.

(** [v instanceof C]. *)
Definition instanceof (v : Thrown) (C : ErrorClass) : bool :=
  match class_of v with
  | Some c => extends c C
  | None => false
  end.

(** The state of a promise. It settles once: [resolve] and [reject] on a
    settled promise do nothing. *)
Inductive Promise (A : Type) : Type :=
| Pending
| Fulfilled (value : A)
| Rejected (reason : Thrown).
Arguments Pending {A}.
Arguments Fulfilled {A} value.
Arguments Rejected {A} reason.

Definition settle {A} (outcome p : Promise A) : Promise A :=
  match p with
  | Pending => outcome
  | _ => p
  end.

Definition resolve {A} (a : A) : Promise A → Promise A := settle (Fulfilled a).
Definition reject {A} (v : Thrown) : Promise A → Promise A := settle (Rejected v).

(** How a call of a built-in ends: with a value, or by throwing an error
    object of some class. *)
Inductive Completion (A : Type) : Type :=
| Normal (value : A)
| Throw (cls : ErrorClass) (message : string).
Arguments Normal {A} value.
Arguments Throw {A} cls message.

(** [String.prototype.includes]: [sub] occurs somewhere in [s]. *)
Fixpoint startsWith (s sub : string) {struct sub} : bool :=
  match sub, s with
  | EmptyString, _ => true
  | String _ _, EmptyString => false
  | String a sub', String b s' => bool_decide (a = b) && startsWith s' sub'
  end.

Fixpoint includes (s sub : string) : bool :=
  startsWith s sub ||
  match s with
  | EmptyString => false
  | String _ s' => includes s' sub
  end.

(** Truthiness of an optional string: [undefined] and [''] are falsy. *)
Definition truthy (s : option string) : bool :=
  match s with
  | None | Some EmptyString => false
  | Some _ => true
  end.

End Js.

(** ** JSON values, [JSON.stringify] and [JSON.parse] *)

Module Json.

(** A number as a decimal, [mant * 10 ^ expo], in normal form: the mantissa
    does not end in a zero. Two numbers are [===] when their normal forms
    are equal. Which decimals are numbers of JavaScript is said below, under
    Doubles. *)
Record Number : Set := { mant : Z; expo : Z }.

#[global] Instance Number_eq_dec : EqDecision Number.
Proof. solve_decision. Defined.

Fixpoint strip_zeros (fuel : nat) (m e : Z) : Number :=
  match fuel with
  | O => {| mant := m; expo := e |}
  | S f =>
      if bool_decide (m ≠ 0) && bool_decide (m `mod` 10 = 0)
      then strip_zeros f (m `div` 10) (e + 1)
      else {| mant := m; expo := e |}
  end.

Definition normalize (m e : Z) : Number :=
  if bool_decide (m = 0) then {| mant := 0; expo := 0 |}
  else strip_zeros (Z.to_nat (Z.log2 (Z.abs m))) m e.

Definition of_Z (z : Z) : Number := normalize z 0.

(** A parsed value. An object keeps its properties in insertion order. *)
#[warnings="-register-all"]
Inductive Json : Set :=
| JNull
| JBool (b : bool)
| JNumber (n : Number)
| JString (s : string)
| JArray (items : list Json)
| JObject (props : list (string * Json)).

(** [o[k]]; [None] is [undefined]. *)
Fixpoint assoc (k : string) (props : list (string * Json)) : option Json :=
  match props with
  | [] => None
  | (k', v) :: rest => if bool_decide (k' = k) then Some v else assoc k rest
  end.

Definition get (k : string) (v : Json) : option Json :=
  match v with
  | JObject props => assoc k props
  | _ => None
  end.

(** [o[k] = v]: an existing property keeps its place, a new one goes last. *)
Fixpoint set_prop (k : string) (v : Json) (props : list (string * Json))
  : list (string * Json) :=
  match props with
  | [] => [(k, v)]
  | (k', v') :: rest =>
      if bool_decide (k' = k) then (k, v) :: rest
      else (k', v') :: set_prop k v rest
  end.

(** An object literal in which a property whose value is [undefined] is
    left out by [JSON.stringify]. *)
Fixpoint literal (fields : list (string * option Json)) : list (string * Json) :=
  match fields with
  | [] => []
  | (k, Some v) :: rest => (k, v) :: literal rest
  | (_, None) :: rest => literal rest
  end.

(** *** Printing *)

Definition digit_char (d : Z) : ascii := ascii_of_nat (48 + Z.to_nat d).

Fixpoint digits_of (fuel : nat) (n : Z) (acc : string) : string :=
  match fuel with
  | O => acc
  | S f =>
      let acc' := String (digit_char (n `mod` 10)) acc in
      if bool_decide (n `div` 10 = 0) then acc' else digits_of f (n `div` 10) acc'
  end.

(** The decimal digits of a natural number, no leading zero. *)
Definition digits (n : Z) : string := digits_of (S (Z.to_nat (Z.log2 n))) n "".

Fixpoint zeros (n : nat) : string :=
  match n with
  | O => ""
  | S k => String "0" (zeros k)
  end.

Fixpoint take (n : nat) (s : string) : string :=
  match n, s with
  | S k, String c rest => String c (take k rest)
  | _, _ => ""
  end.

Fixpoint drop (n : nat) (s : string) : string :=
  match n, s with
  | S k, String _ rest => drop k rest
  | _, _ => s
  end.

(** *** Doubles

    A JavaScript number is a double. It is named here by the shortest
    decimal that reads back as that double, which is the decimal that
    [Number.prototype.toString] prints; the two infinities are named by a
    decimal beyond every double. *)

Definition infinity : Number := {| mant := 1; expo := 309 |}.

Definition negate (x : Number) : Number := {| mant := - mant x; expo := expo x |}.

Definition is_finite (x : Number) : bool :=
  bool_decide (x ≠ infinity) && bool_decide (x ≠ negate infinity).

(** [num / den] rounded to the nearest integer, a tie to the even one. *)
Definition round_half_even (num den : Z) : Z :=
  let q := num `div` den in
  let r := num `mod` den in
  if bool_decide (2 * r < den) then q
  else if bool_decide (den < 2 * r) then q + 1
  else if Z.even q then q else q + 1.

(** [2 ^ l <= a / b], for positive [a] and [b]. *)
Definition pow2_le (l a b : Z) : bool :=
  if bool_decide (0 ≤ l) then bool_decide (b * 2 ^ l ≤ a)
  else bool_decide (b ≤ a * 2 ^ (- l)).

(** The double nearest to [a / b], for positive [a] and [b], as the exact
    decimal of its value: a significand of 53 bits at most, an exponent of
    two not under -1074, a tie to the even significand; [None] when the
    nearest value is beyond the largest double. *)
Definition binary64 (a b : Z) : option Number :=
  let l0 := Z.log2 a - Z.log2 b in
  let l := if pow2_le l0 a b then l0 else l0 - 1 in
  let k := Z.max (l - 52) (-1074) in
  let t := if bool_decide (0 ≤ k) then round_half_even a (b * 2 ^ k)
           else round_half_even (a * 2 ^ (- k)) b in
  if bool_decide (0 ≤ k) then
    if bool_decide (2 ^ 1024 ≤ t * 2 ^ k) then None
    else Some (normalize (t * 2 ^ k) 0)
  else Some (normalize (t * 5 ^ (- k)) k).

(** The double nearest to the positive decimal [m * 10 ^ e]. *)
Definition nearest (m e : Z) : option Number :=
  if bool_decide (0 ≤ e) then binary64 (m * 10 ^ e) 1
  else binary64 m (10 ^ (- e)).

(** The shortest decimal that reads back as the positive double [d]: for
    [n] digits, the decimal just under [d] and the one just above it are
    tried; of two that read back as [d] the closer one is taken, the even
    one when they are as close. With no such decimal of up to seventeen
    digits, the exact value of [d] is its own name. *)
Fixpoint shortest_from (rounds : nat) (n : Z) (d : Number) : Number :=
  match rounds with
  | O => d
  | S rounds' =>
      let k := Z.of_nat (String.length (digits (mant d))) in
      if bool_decide (k ≤ n) then d else
      let unit := 10 ^ (k - n) in
      let lo := mant d `div` unit in
      let hi := lo + 1 in
      let e := expo d + (k - n) in
      let lo_ok := bool_decide (nearest lo e = Some d) in
      let hi_ok := bool_decide (nearest hi e = Some d) in
      let below := mant d - lo * unit in
      let above := hi * unit - mant d in
      if lo_ok && hi_ok then
        if bool_decide (below < above) then normalize lo e
        else if bool_decide (above < below) then normalize hi e
        else if Z.even lo then normalize lo e else normalize hi e
      else if lo_ok then normalize lo e
      else if hi_ok then normalize hi e
      else shortest_from rounds' (n + 1) d
  end.

Definition shortest (d : Number) : Number := shortest_from 17 1 d.

(** The name of the double that the decimal [m * 10 ^ e] is read as. *)
Definition to_double (m e : Z) : Number :=
  let x := normalize m e in
  if bool_decide (mant x = 0) then x else
  let named :=
    match nearest (Z.abs (mant x)) (expo x) with
    | None => infinity
    | Some d => if bool_decide (mant d = 0) then d else shortest d
    end in
  if bool_decide (mant x < 0) then negate named else named.

(** The normal form of a decimal: zero, or a mantissa that does not end in
    a zero. *)
Definition normal (x : Number) : Prop :=
  (mant x = 0 ∧ expo x = 0) ∨ mant x `mod` 10 ≠ 0.

(** A number of JavaScript that is not an infinity: the name of a double. *)
Definition is_double (x : Number) : Prop :=
  normal x ∧ to_double (mant x) (expo x) = x ∧ is_finite x = true.

(** [Number.prototype.toString] on the digits [d] of the mantissa, [k] of
    them, with the decimal point after the [n]-th. *)
Definition number_toString (x : Number) : string :=
  let x := normalize (mant x) (expo x) in
  if bool_decide (mant x = 0) then "0" else
  if negb (is_finite x) then
    (if bool_decide (mant x < 0) then "-Infinity" else "Infinity") else
  let sign := if bool_decide (mant x < 0) then "-" else "" in
  let d := digits (Z.abs (mant x)) in
  let k := Z.of_nat (String.length d) in
  let n := k + expo x in
  sign +:+
  (if bool_decide (k ≤ n ≤ 21) then d +:+ zeros (Z.to_nat (n - k))
   else if bool_decide (0 < n ≤ 21) then
     take (Z.to_nat n) d +:+ "." +:+ drop (Z.to_nat n) d
   else if bool_decide (-6 < n ≤ 0) then
     "0." +:+ zeros (Z.to_nat (- n)) +:+ d
   else
     let e := n - 1 in
     let es := (if bool_decide (e < 0) then "-" else "+") +:+ digits (Z.abs e) in
     if bool_decide (k = 1) then d +:+ "e" +:+ es
     else take 1 d +:+ "." +:+ drop 1 d +:+ "e" +:+ es).

(** The double quote. *)
Definition dquote : ascii := "034"%char.

Definition hex_char (d : nat) : ascii :=
  if bool_decide (d < 10)%nat then ascii_of_nat (48 + d) else ascii_of_nat (87 + d).

(** One character of a quoted string. *)
Definition escape (c : ascii) : string :=
  let n := nat_of_ascii c in
  if bool_decide (n = 34)%nat then String "\" (String dquote "")
  else if bool_decide (n = 92)%nat then "\\"
  else if bool_decide (n = 8)%nat then "\b"
  else if bool_decide (n = 12)%nat then "\f"
  else if bool_decide (n = 10)%nat then "\n"
  else if bool_decide (n = 13)%nat then "\r"
  else if bool_decide (n = 9)%nat then "\t"
  else if bool_decide (n < 32)%nat then
    "\u00" +:+ String (hex_char (n / 16)) (String (hex_char (n mod 16)) "")
  else String c "".

Fixpoint escape_all (s : string) : string :=
  match s with
  | EmptyString => ""
  | String c rest => escape c +:+ escape_all rest
  end.

Definition quote (s : string) : string :=
  String dquote (escape_all s +:+ String dquote "").

Fixpoint join (sep : string) (parts : list string) : string :=
  match parts with
  | [] => ""
  | [p] => p
  | p :: rest => p +:+ sep +:+ join sep rest
  end.

(** [JSON.stringify(v)], no indentation. *)
Fixpoint stringify (v : Json) : string :=
  match v with
  | JNull => "null"
  | JBool true => "true"
  | JBool false => "false"
  | JNumber n => if is_finite n then number_toString n else "null"
  | JString s => quote s
  | JArray items => "[" +:+ join "," (List.map stringify items) +:+ "]"
  | JObject props =>
      "{" +:+
      join "," (List.map (λ kv, quote (fst kv) +:+ ":" +:+ stringify (snd kv)) props)
      +:+ "}"
  end.

(** A value as JavaScript can hold it: no object has two properties of one
    name, and every number is a finite double. *)
Fixpoint proper (v : Json) : Prop :=
  match v with
  | JNumber n => is_double n
  | JArray items =>
      (fix all (l : list Json) : Prop :=
         match l with
         | [] => True
         | x :: rest => proper x ∧ all rest
         end) items
  | JObject props =>
      NoDup (List.map fst props) ∧
      (fix all (l : list (string * Json)) : Prop :=
         match l with
         | [] => True
         | kv :: rest => proper (snd kv) ∧ all rest
         end) props
  | JNull | JBool _ | JString _ => True
  end.

(** The number of values and properties in a value. *)
Fixpoint size (v : Json) : nat :=
  match v with
  | JArray items =>
      S ((fix sum (l : list Json) : nat :=
            match l with
            | [] => O
            | x :: rest => (S (size x) + sum rest)%nat
            end) items)
  | JObject props =>
      S ((fix sum (l : list (string * Json)) : nat :=
            match l with
            | [] => O
            | kv :: rest => (S (size (snd kv)) + sum rest)%nat
            end) props)
  | JNull | JBool _ | JNumber _ | JString _ => 1%nat
  end.

(** *** Parsing *)

Definition is_ws (c : ascii) : bool :=
  let n := nat_of_ascii c in
  bool_decide (n = 32 ∨ n = 9 ∨ n = 10 ∨ n = 13)%nat.

Fixpoint skip_ws (s : string) : string :=
  match s with
  | String c rest => if is_ws c then skip_ws rest else s
  | EmptyString => s
  end.

Definition digit_of (c : ascii) : option Z :=
  let n := Z.of_nat (nat_of_ascii c) in
  if bool_decide (48 ≤ n ≤ 57) then Some (n - 48) else None.

Definition hex_of (c : ascii) : option Z :=
  let n := Z.of_nat (nat_of_ascii c) in
  if bool_decide (48 ≤ n ≤ 57) then Some (n - 48)
  else if bool_decide (97 ≤ n ≤ 102) then Some (n - 87)
  else if bool_decide (65 ≤ n ≤ 70) then Some (n - 55)
  else None.

Definition hex4 (a b c d : ascii) : option Z :=
  x ← hex_of a; y ← hex_of b; z ← hex_of c; w ← hex_of d;
  Some (((x * 16 + y) * 16 + z) * 16 + w).

Definition byte (n : Z) : ascii := ascii_of_nat (Z.to_nat n).

(** The UTF-8 bytes of a code point. *)
Definition utf8 (cp : Z) : string :=
  if bool_decide (cp < 128) then String (byte cp) ""
  else if bool_decide (cp < 2048) then
    String (byte (192 + cp `div` 64)) (String (byte (128 + cp `mod` 64)) "")
  else if bool_decide (cp < 65536) then
    String (byte (224 + cp `div` 4096))
      (String (byte (128 + (cp `div` 64) `mod` 64))
         (String (byte (128 + cp `mod` 64)) ""))
  else
    String (byte (240 + cp `div` 262144))
      (String (byte (128 + (cp `div` 4096) `mod` 64))
         (String (byte (128 + (cp `div` 64) `mod` 64))
            (String (byte (128 + cp `mod` 64)) ""))).

Definition simple_escape (e : ascii) : option ascii :=
  let n := nat_of_ascii e in
  if bool_decide (n = 34)%nat then Some dquote
  else if bool_decide (n = 92)%nat then Some "\"%char
  else if bool_decide (n = 47)%nat then Some "/"%char
  else if bool_decide (n = 98)%nat then Some (ascii_of_nat 8)
  else if bool_decide (n = 102)%nat then Some (ascii_of_nat 12)
  else if bool_decide (n = 110)%nat then Some (ascii_of_nat 10)
  else if bool_decide (n = 114)%nat then Some (ascii_of_nat 13)
  else if bool_decide (n = 116)%nat then Some (ascii_of_nat 9)
  else None.

(** The low half of a surrogate pair written as a second [\uXXXX], if the
    text goes on with one. *)
Definition low_surrogate (s : string) : option Z :=
  match s with
  | String b (String u (String h1 (String h2 (String h3 (String h4 _))))) =>
      if bool_decide (b = "\"%char) && bool_decide (u = "u"%char) then
        lo ← hex4 h1 h2 h3 h4;
        if bool_decide (56320 ≤ lo ≤ 57343) then Some lo else None
      else None
  | _ => None
  end.

(** The characters of a string after its opening quote, up to the closing
    one; the rest of the text follows. *)
Fixpoint parse_chars (s : string) : option (string * string) :=
  match s with
  | EmptyString => None
  | String c rest =>
      if bool_decide (c = dquote) then Some ("", rest)
      else if bool_decide (c = "\"%char) then
        match rest with
        | String e rest1 =>
            if bool_decide (e = "u"%char) then
              match rest1 with
              | String h1 (String h2 (String h3 (String h4 rest2))) =>
                  hi ← hex4 h1 h2 h3 h4;
                  match (if bool_decide (55296 ≤ hi ≤ 56319)
                         then low_surrogate rest2 else None), rest2 with
                  | Some lo, String _ (String _ (String _ (String _ (String _ (String _ rest3))))) =>
                      '(str, r) ← parse_chars rest3;
                      Some (utf8 (65536 + (hi - 55296) * 1024 + (lo - 56320)) +:+ str, r)
                  | _, _ =>
                      '(str, r) ← parse_chars rest2;
                      Some (utf8 hi +:+ str, r)
                  end
              | _ => None
              end
            else
              x ← simple_escape e;
              '(str, r) ← parse_chars rest1;
              Some (String x str, r)
        | EmptyString => None
        end
      else if bool_decide (nat_of_ascii c < 32)%nat then None
      else
        '(str, r) ← parse_chars rest;
        Some (String c str, r)
  end.

(** Digits read into [acc]; [count] says how many were read. *)
Fixpoint read_digits (s : string) (acc : Z) (count : nat) : Z * nat * string :=
  match s with
  | String c rest =>
      match digit_of c with
      | Some d => read_digits rest (10 * acc + d) (S count)
      | None => (acc, count, s)
      end
  | EmptyString => (acc, count, s)
  end.

Definition read_sign (s : string) : bool * string :=
  match s with
  | String c rest =>
      if bool_decide (c = "-"%char) then (true, rest) else (false, s)
  | EmptyString => (false, s)
  end.

(** [int], the grammar's integer part: a lone [0], or digits that start with
    a non-zero one. *)
Definition read_int (s : string) : option (Z * string) :=
  match s with
  | String c rest =>
      d ← digit_of c;
      if bool_decide (d = 0) then Some (0, rest)
      else let '(n, _, r) := read_digits rest d 1 in Some (n, r)
  | EmptyString => None
  end.

(** [frac]: the digits after a point extend the mantissa. *)
Definition read_frac (m : Z) (s : string) : option (Z * nat * string) :=
  match s with
  | String c rest =>
      if bool_decide (c = "."%char) then
        let '(m', count, r) := read_digits rest m 0 in
        if bool_decide (count = 0)%nat then None else Some (m', count, r)
      else Some (m, 0%nat, s)
  | EmptyString => Some (m, 0%nat, s)
  end.

(** [exp]. *)
Definition read_exp (s : string) : option (Z * string) :=
  match s with
  | String c rest =>
      if bool_decide (c = "e"%char) || bool_decide (c = "E"%char) then
        let '(neg, r1) :=
          match rest with
          | String sg r =>
              if bool_decide (sg = "-"%char) then (true, r)
              else if bool_decide (sg = "+"%char) then (false, r)
              else (false, rest)
          | EmptyString => (false, rest)
          end in
        let '(e, count, r2) := read_digits r1 0 0 in
        if bool_decide (count = 0)%nat then None
        else Some (if neg then - e else e, r2)
      else Some (0, s)
  | EmptyString => Some (0, s)
  end.

Definition parse_number (s : string) : option (Number * string) :=
  let '(neg, s1) := read_sign s in
  '(i, s2) ← read_int s1;
  '(m, fracs, s3) ← read_frac i s2;
  '(e, s4) ← read_exp s3;
  Some (to_double (if neg then - m else m) (e - Z.of_nat fracs), s4).

(** A fixed word at the head of the text. *)
Definition keyword (w : string) (s : string) : option string :=
  if Js.startsWith s w then Some (drop (String.length w) s) else None.

Fixpoint parse_value (fuel : nat) (s : string) : option (Json * string) :=
  match fuel with
  | O => None
  | S fuel' =>
      match skip_ws s with
      | EmptyString => None
      | String c rest =>
          if bool_decide (c = "{"%char) then
            match skip_ws rest with
            | String c' rest' =>
                if bool_decide (c' = "}"%char) then Some (JObject [], rest')
                else parse_members fuel' rest []
            | EmptyString => None
            end
          else if bool_decide (c = "["%char) then
            match skip_ws rest with
            | String c' rest' =>
                if bool_decide (c' = "]"%char) then Some (JArray [], rest')
                else parse_elements fuel' rest []
            | EmptyString => None
            end
          else if bool_decide (c = dquote) then
            '(str, r) ← parse_chars rest; Some (JString str, r)
          else if bool_decide (c = "t"%char) then
            r ← keyword "true" (String c rest); Some (JBool true, r)
          else if bool_decide (c = "f"%char) then
            r ← keyword "false" (String c rest); Some (JBool false, r)
          else if bool_decide (c = "n"%char) then
            r ← keyword "null" (String c rest); Some (JNull, r)
          else
            '(n, r) ← parse_number (String c rest); Some (JNumber n, r)
      end
  end
with parse_members (fuel : nat) (s : string) (acc : list (string * Json))
  : option (Json * string) :=
  match fuel with
  | O => None
  | S fuel' =>
      match skip_ws s with
      | String q rest =>
          if bool_decide (q = dquote) then
            '(k, r1) ← parse_chars rest;
            match skip_ws r1 with
            | String colon r2 =>
                if bool_decide (colon = ":"%char) then
                  '(v, r3) ← parse_value fuel' r2;
                  match skip_ws r3 with
                  | String sep r4 =>
                      if bool_decide (sep = ","%char)
                      then parse_members fuel' r4 (set_prop k v acc)
                      else if bool_decide (sep = "}"%char)
                      then Some (JObject (set_prop k v acc), r4)
                      else None
                  | EmptyString => None
                  end
                else None
            | EmptyString => None
            end
          else None
      | EmptyString => None
      end
  end
with parse_elements (fuel : nat) (s : string) (acc : list Json)
  : option (Json * string) :=
  match fuel with
  | O => None
  | S fuel' =>
      '(v, r1) ← parse_value fuel' s;
      match skip_ws r1 with
      | String sep r2 =>
          if bool_decide (sep = ","%char)
          then parse_elements fuel' r2 (acc ++ [v])
          else if bool_decide (sep = "]"%char)
          then Some (JArray (acc ++ [v]), r2)
          else None
      | EmptyString => None
      end
  end.

(** [JSON.parse(text)]. A text that is not one JSON value makes it throw a
    [SyntaxError]; the wording of the message is the engine's, and is fixed
    here to one sentence per cause. Properties come out in the order of the
    text (the engine moves keys that look like array indices to the front),
    and no distinction is made between [0] and [-0]. *)
Definition parse (text : string) : Js.Completion Json :=
  match parse_value (S (String.length text)) text with
  | Some (v, rest) =>
      match skip_ws rest with
      | EmptyString => Js.Normal v
      | String _ _ =>
          Js.Throw Js.SyntaxError "Unexpected non-whitespace character after JSON"
      end
  | None => Js.Throw Js.SyntaxError "Unexpected token or end of JSON input"
  end.

End Json.

(** ** [HttpClient.ts] *)

Module HttpClient.
Import Js.

(** What the platform supplies to the response handlers: [JSON.parse], and
    [Buffer.concat(chunks).toString('utf8')]. *)
Class Platform : Type := {
  JSON_parse : string → Completion Json.Json;
  Buffer_toString_utf8 : list string → string;
}.

Inductive MethodT : Set := getBalance | createTask | getTaskResult.

(** [Record<string, unknown>]: a decoded response. *)
Definition JSONResponseT : Set := Json.Json.

#[global] Instance MethodT_eq_dec : EqDecision MethodT.
Proof. solve_decision. Defined.

Definition method_name (m : MethodT) : string :=
  match m with
  | getBalance => "getBalance"
  | createTask => "createTask"
  | getTaskResult => "getTaskResult"
  end.

Inductive ResponseContentType : Set := json | text.

Definition media_type (t : ResponseContentType) : string :=
  match t with
  | json => "application/json"
  | text => "text/plain"
  end.

(** [Array<ResponseContentType> | ResponseContentType]. *)
Inductive Expected : Set :=
| One (t : ResponseContentType)
| Many (ts : list ResponseContentType).

(** [ClientURL] is declared in another file; these are the fields read here. *)
Record ClientURL : Set := {
  clientPort : Z;
  hostname : string;
  host : string;
  port : Z;
}.

Record Headers : Set := { UserAgent : string; ContentType : string }.

(** A socket is named by the rank of the [net.connect] call that made it. *)
Definition Socket : Set := nat.

(** [new https.Agent({ socket, keepAlive, timeout })]. *)
Record Agent : Set := {
  agent_socket : Socket;
  keepAlive : bool;
  agent_timeout : option Z;
}.

(** The fields of an [HttpClient] instance. The calls of [debugNet] and
    [debugHttps] only write to a log and are left out. *)
Record HttpClient : Set := {
  _socket : option Socket;
  _agent : option Agent;
  timeout : option Z;
  defaultRequestHeaders : Headers;
  url : ClientURL;
}.

(** [new HttpClient(url)]. *)
Definition new (u : ClientURL) : HttpClient :=
  {| _socket := None; _agent := None; timeout := None;
     defaultRequestHeaders := {| UserAgent := ""; ContentType := "application/json" |};
     url := u |}.

Definition with_socket (s : option Socket) (c : HttpClient) : HttpClient :=
  {| _socket := s; _agent := _agent c; timeout := timeout c;
     defaultRequestHeaders := defaultRequestHeaders c; url := url c |}.

Definition with_agent (a : option Agent) (c : HttpClient) : HttpClient :=
  {| _socket := _socket c; _agent := a; timeout := timeout c;
     defaultRequestHeaders := defaultRequestHeaders c; url := url c |}.

(** *** The socket and its listeners *)

(** One [net.connect(port, host)] call: where it dialled, and the promise that
    the [netConnect] call around it returned. *)
Record Dial : Set := {
  dial_port : Z;
  dial_host : string;
  connecting : Promise unit;
}.

Definition with_connecting (p : Promise unit) (d : Dial) : Dial :=
  {| dial_port := dial_port d; dial_host := dial_host d; connecting := p |}.

(** The instance together with every socket it has opened so far. *)
Record Runtime : Set := {
  this : HttpClient;
  net : list Dial;
}.

Inductive SocketEvent : Set :=
| error (err : NodeError)
| close (hadError : bool)
| connect.

(** The promise a caller of [netConnectOrUse] holds. *)
Inductive ConnectPromise : Set :=
| Promise_resolve
| OfNetConnect (s : Socket).

Definition netConnect (rt : Runtime) : Runtime * ConnectPromise :=
  let s := length (net rt) in
  let d := {| dial_port := clientPort (url (this rt));
              dial_host := hostname (url (this rt));
              connecting := Pending |} in
  ({| this := with_socket (Some s) (this rt); net := net rt ++ [d] |},
   OfNetConnect s).

Definition netConnectOrUse (rt : Runtime) : Runtime * ConnectPromise :=
  match _socket (this rt) with
  | Some _ => (rt, Promise_resolve)
  | None => netConnect rt
  end.

(** The listeners that [netConnect] put on socket [s], run on one event.
    A socket that was never opened has none. *)
Definition emit (s : Socket) (ev : SocketEvent) (rt : Runtime) : Runtime :=
  match net rt !! s with
  | None => rt
  | Some d =>
      match ev with
      | error err =>
          {| this := with_agent None (with_socket None (this rt));
             net := <[s := with_connecting (reject (Native err) (connecting d)) d]> (net rt) |}
      | close hadError =>
          {| this := with_agent None (with_socket None (this rt));
             net := <[s := with_connecting (reject (Boolean hadError) (connecting d)) d]> (net rt) |}
      | connect =>
          match _socket (this rt) with
          | Some cur =>
              let a := {| agent_socket := cur; keepAlive := true;
                          agent_timeout := timeout (this rt) |} in
              {| this := with_agent (Some a) (this rt);
                 net := <[s := with_connecting (resolve () (connecting d)) d]> (net rt) |}
          | None =>
              {| this := this rt;
                 net := <[s := with_connecting (reject Undefined (connecting d)) d]> (net rt) |}
          end
      end
  end.

(** The state of a promise handed out by [netConnectOrUse]. *)
Definition promise_state (rt : Runtime) (p : ConnectPromise) : Promise unit :=
  match p with
  | Promise_resolve => Fulfilled ()
  | OfNetConnect s =>
      match net rt !! s with
      | Some d => connecting d
      | None => Pending
      end
  end.

(** *** Requests and responses *)

(** The options object given to [https.request]. *)
Record RequestOptions : Set := {
  req_host : string;
  req_port : Z;
  req_path : string;
  req_user_agent : string;
  req_content_type : string;
  req_agent : option Agent;
  req_method : string;
}.

(** An [IncomingMessage]: the status line, the one header that is read, and
    what its stream goes on to emit: [data] chunks, then [end] or [error]. *)
Record IncomingMessage : Set := {
  statusCode : option Z;
  statusMessage : option string;
  content_type : option string;
  chunks : list string;
  stream_error : option NodeError;
}.

(** What the network does with a request: a response arrives, or the request
    emits [error]. *)
Inductive NetReply : Set :=
| Responds (res : IncomingMessage)
| RequestFails (err : NodeError).

(** The steps a call goes through, in the order it enters them. *)
Inductive Call : Set :=
| Request (options : RequestOptions) (data : string)
| StatusCheck
| ContentTypeCheck
| BodyRead
| JsonParse (body : string).

(** An awaited computation: the steps entered, and how it settled. *)
Record Async (A : Type) : Type := { calls : list Call; outcome : Promise A }.
Arguments calls {A} _.
Arguments outcome {A} _.

#[global] Instance Async_ret : MRet Async :=
  λ A a, {| calls := []; outcome := Fulfilled a |}.

(** [await m] and then go on with [f]; a rejection of [m] is thrown and ends
    the [async] function. *)
#[global] Instance Async_bind : MBind Async :=
  λ A B f m,
    match outcome m with
    | Fulfilled a => {| calls := calls m ++ calls (f a); outcome := outcome (f a) |}
    | Rejected v => {| calls := calls m; outcome := Rejected v |}
    | Pending => {| calls := calls m; outcome := Pending |}
    end.

Definition throw {A} (v : Thrown) : Async A := {| calls := []; outcome := Rejected v |}.

Definition enter (c : Call) : Async () := {| calls := [c]; outcome := Fulfilled () |}.

(** The test that [responseContentTypeHandler] makes on a header that is
    there, under a name. *)
Definition accepted (expected : Expected) (contentType : string) : bool :=
  match expected with
  | Many ts => existsb (λ t, includes contentType (media_type t)) ts
  | One t => includes contentType (media_type t)
  end.

(** The header is absent (or empty), or contains none of the media types
    in [types]. *)
Definition unexpected (types : list ResponseContentType) (header : option string) : Prop :=
  truthy header = false ∨
  ∃ contentType, header = Some contentType ∧
                 ∀ t, t ∈ types → includes contentType (media_type t) = false.

Section Handlers.
Context `{P : Platform}.

Definition responseStatusHandler (res : IncomingMessage) (expectedStatus : Z)
  : Async IncomingMessage :=
  enter StatusCheck;;
  if bool_decide (statusCode res = Some expectedStatus) then mret res
  else throw (NewHttpStatusError (statusMessage res) (statusCode res)).

Definition responseContentTypeHandler (res : IncomingMessage)
    (expectedContentTypes : Expected) : Async IncomingMessage :=
  enter ContentTypeCheck;;
  match truthy (content_type res), content_type res with
  | true, Some contentType =>
      if match expectedContentTypes with
         | Many ts => existsb (λ t, includes contentType (media_type t)) ts
         | One t => includes contentType (media_type t)
         end
      then mret res
      else throw (NewHttpContentTypeError
                    (Some ("Unexpected content type. Got " +:+ contentType)) None)
  | _, _ => throw (NewHttpContentTypeError (Some "Unknown content type") None)
  end.

Definition responseBodyHandler (res : IncomingMessage) : Async string :=
  enter BodyRead;;
  match stream_error res with
  | None => mret (Buffer_toString_utf8 (chunks res))
  | Some err => throw (Native err)
  end.

Definition responseJSONHandler (res : IncomingMessage) : Async JSONResponseT :=
  responseBody ← responseBodyHandler res;
  enter (JsonParse responseBody);;
  match JSON_parse responseBody with
  | Normal v => mret v
  | Throw cls message =>
      if extends cls SyntaxError
      then throw (NewJSONParseError message responseBody)
      else throw (NewJSONParseError "Unknown JSON parse error" responseBody)
  end.

Definition responseTextHandler (res : IncomingMessage) : Async string :=
  responseBodyHandler res.

Definition request_options (c : HttpClient) (method : MethodT) : RequestOptions :=
  {| req_host := host (url c);
     req_port := port (url c);
     req_path := "/" +:+ method_name method;
     req_user_agent := UserAgent (defaultRequestHeaders c);
     req_content_type := ContentType (defaultRequestHeaders c);
     req_agent := _agent c;
     req_method := "POST" |}.

Definition requestHandler (c : HttpClient) (method : MethodT) (data : string)
    (reply : NetReply) : Async IncomingMessage :=
  enter (Request (request_options c method) data);;
  match reply with
  | Responds res => mret res
  | RequestFails err => throw (Native err)
  end.

Definition postJSON (c : HttpClient) (method : MethodT) (data : string)
    (reply : NetReply) : Async JSONResponseT :=
  res ← requestHandler c method data reply;
  responseStatusHandler res 200;;
  responseContentTypeHandler res (Many [json; text]);;
  responseJSONHandler res.

Definition postText (c : HttpClient) (method : MethodT) (data : string)
    (reply : NetReply) : Async string :=
  res ← requestHandler c method data reply;
  responseStatusHandler res 200;;
  responseContentTypeHandler res (One text);;
  responseTextHandler res.

(** What happens around one [post]: the first event of the socket, if the
    call opens one, and the fate of the request. *)
Record Exchange : Set := {
  first_event : SocketEvent;
  reply : NetReply;
}.

(** [post]: [await this.netConnectOrUse()], then [postJSON]. The awaited
    promise is looked at once the first event of a new socket has run its
    listener. *)
Definition post (method : MethodT) (data : string) (x : Exchange)
    (rt : Runtime) : Runtime * Async JSONResponseT :=
  let '(rt1, p) := netConnectOrUse rt in
  let rt2 := match p with
             | Promise_resolve => rt1
             | OfNetConnect s => emit s (first_event x) rt1
             end in
  (rt2,
   {| calls := []; outcome := promise_state rt2 p |};;
   postJSON (this rt2) method data (reply x)).

End Handlers.

End HttpClient.

(** *** Sequences of transport operations *)

Module Transport.
Import Js HttpClient.

(** What can happen to the socket state of an instance: a call of one of the
    two connecting methods, or an event on a socket. *)
Inductive Op : Set :=
| CallNetConnect
| CallNetConnectOrUse
| Emit (s : Socket) (ev : SocketEvent).

Definition exec (op : Op) (rt : Runtime) : Runtime :=
  match op with
  | CallNetConnect => fst (netConnect rt)
  | CallNetConnectOrUse => fst (netConnectOrUse rt)
  | Emit s ev => emit s ev rt
  end.

Definition exec_all (ops : list Op) (rt : Runtime) : Runtime :=
  foldl (λ r op, exec op r) rt ops.

(** A fresh instance: no socket opened yet. *)
Definition boot (u : ClientURL) : Runtime := {| this := new u; net := [] |}.

(** The operations that the public method [post] performs on the socket
    state. *)
Definition post_ops (x : Exchange) (rt : Runtime) : list Op :=
  match _socket (this rt) with
  | Some _ => [CallNetConnectOrUse]
  | None => [CallNetConnectOrUse; Emit (length (net rt)) (first_event x)]
  end.

(** The agent is there only with a socket. *)
Definition agent_needs_socket (c : HttpClient) : Prop :=
  is_Some (_agent c) → is_Some (_socket c).

(** The agent is bound to the very socket that is stored. *)
Definition agent_on_socket (c : HttpClient) : Prop :=
  ∀ a, _agent c = Some a → _socket c = Some (agent_socket a).

(** Neither field is set. *)
Definition cleared (c : HttpClient) : Prop := _socket c = None ∧ _agent c = None.

(** The argument that the listener of [ev] passes to [reject]. *)
Definition rejection_of (ev : SocketEvent) : option Thrown :=
  match ev with
  | error err => Some (Native err)
  | close hadError => Some (Boolean hadError)
  | connect => None
  end.

End Transport.

(** ** The client: balance, task creation and polling

    The class behind [CapMonsterCloudClientFactory.Create] is not among the
    sources at hand; only its integration test is. Its definitions below
    follow the specification, and the test where the specification is silent
    on a literal. *)

Module CapMonsterCloudClient.
Import Js Json HttpClient.

(** Modelled from the spec: [ClientOptions], whose file is missing, "a
    configuration bundle (API key, service URL, polling interval,
    first-delay, max attempts)". *)
Record ClientOptions : Set := {
  clientKey : string;
  serviceUrl : string;
  pollingInterval : Z;
  firstDelay : Z;
  maxAttempts : nat;
}.

(** Modelled from the spec: a captcha request, one of the missing classes
    under [Requests/], "a type-tagged task object describing the captcha
    parameters"; the tag is serialized first, as in the body the test
    expects. *)
Record TaskRequest : Set := {
  type : string;
  parameters : list (string * Json);
}.

Definition task_object (r : TaskRequest) : Json :=
  JObject (("type", JString (type r)) :: parameters r).

(** Modelled from the spec: [RecaptchaV2ProxylessRequest], whose file is
    missing; the type tag and the order of the fields are those of the body
    that the integration test expects. *)
Definition RecaptchaV2ProxylessRequest (websiteURL websiteKey : string) : TaskRequest :=
  {| type := "NoCaptchaTaskProxyless";
     parameters := [("websiteURL", JString websiteURL);
                    ("websiteKey", JString websiteKey)] |}.

(** Modelled from the spec: the "fixed integration identifier" of the missing
    client, 53 in the body the test expects. *)
Definition softId : Z := 53.

(** Modelled from the spec: the three request bodies of the missing client
    class. "Always includes the
    client key; createTask additionally nests a type-tagged task object plus
    a fixed integration identifier; getTaskResult includes the task
    identifier." *)
Definition getBalance_body (o : ClientOptions) : string :=
  stringify (JObject [("clientKey", JString (clientKey o))]).

Definition createTask_body (o : ClientOptions) (task : TaskRequest) : string :=
  stringify (JObject [("clientKey", JString (clientKey o));
                      ("task", task_object task);
                      ("softId", JNumber (of_Z softId))]).

Definition getTaskResult_body (o : ClientOptions) (taskId : option Json) : string :=
  stringify (JObject (literal [("clientKey", Some (JString (clientKey o)));
                               ("taskId", taskId)])).

(** Modelled from the spec: the test for a business error in the missing
    client class, "an errorId field distinct from zero" in a decoded
    response. *)
Definition business_error (response : Json) : bool :=
  match get "errorId" response with
  | Some (JNumber n) => bool_decide (n ≠ of_Z 0)
  | Some _ => true
  | None => false
  end.

(** Modelled from the spec: how the missing client class reads a decoded task
    result. An error code comes first; of the status values only "ready"
    ends the polling. *)
Inductive PollReply : Set :=
| ReplyError
| ReplyReady (solution : option Json)
| ReplyNotReady.

Definition poll_reply (response : Json) : PollReply :=
  if business_error response then ReplyError
  else match get "status" response with
       | Some (JString status) =>
           if bool_decide (status = "ready")
           then ReplyReady (get "solution" response)
           else ReplyNotReady
       | _ => ReplyNotReady
       end.

(** What the client does that an observer can see. *)
Inductive Event : Set :=
| Sent (method : MethodT) (body : string)
| Waited (ms : Z).

Inductive Failure : Set :=
| BusinessError (response : Json)
| TransportError (reason : Thrown).

(** Modelled from the spec: the states of the missing [Solve], "Submitting,
    Polling, Ready, Failed, TimedOut". [Suspended] is a call that awaits a
    request which never settles. *)
Inductive Phase : Set :=
| Submitting
| Polling (taskId : option Json)
| Ready (solution : option Json)
| Failed (why : Failure)
| TimedOut
| Suspended.

(** Modelled from the spec: how a call of the missing client class ends, "the
    orchestrator returns (resolves) on Ready and signals failure (rejects) on
    Failed or TimedOut", the time-out being "a distinct timeout failure"
    that carries the attempt count. *)
Inductive Settlement (A : Type) : Type :=
| Resolves (value : A)
| RejectsWith (why : Failure)
| RejectsWithTimeout (attempts : nat).
Arguments Resolves {A} value.
Arguments RejectsWith {A} why.
Arguments RejectsWithTimeout {A} attempts.

Section Orchestrator.

(** The transport under the client: one POST in a world, which answers with
    a settled or a never-settled promise of the decoded response. *)
Context {World : Type}.
Variable transport : MethodT → string → World → World * Promise Json.
Variable options : ClientOptions.

Record State : Type := {
  world : World;
  phase : Phase;
  attempts : nat;
  log : list Event;
}.

(** Modelled from the spec: [getBalance] of the missing client class. One
    POST of the client key; a business error rejects, any other decoded
    response is the value. *)
Definition getBalance (w : World) : World * list Event * option (Settlement Json) :=
  let body := getBalance_body options in
  let '(w', r) := transport HttpClient.getBalance body w in
  (w', [Sent HttpClient.getBalance body],
   match r with
   | Fulfilled response =>
       if business_error response then Some (RejectsWith (BusinessError response))
       else Some (Resolves response)
   | Rejected v => Some (RejectsWith (TransportError v))
   | Pending => None
   end).

(** Modelled from the spec: one transition of the state machine of the
    missing [Solve].
    - Submitting: "send a create task request"; a non-zero error code goes
      "directly to Failed"; "after success in Submitting, wait an initial
      delay".
    - Polling: the orchestrator "must stop once the counter reaches its
      configured maximum", which is looked at before each poll, the first
      one too; otherwise "send get task result with the stored task
      identifier; inspect the returned status field"; not ready: "wait the
      configured inter-poll interval, increment the attempt counter, and
      retry"; ready: "returning the embedded solution payload"; non-zero
      error code: "Failed with that detail".
    - A transport or protocol error "terminates the in-flight call". *)
Definition step (task : TaskRequest) (st : State) : option State :=
  match phase st with
  | Submitting =>
      let body := createTask_body options task in
      let '(w, r) := transport createTask body (world st) in
      let sent := log st ++ [Sent createTask body] in
      Some
        match r with
        | Pending =>
            {| world := w; phase := Suspended; attempts := attempts st; log := sent |}
        | Rejected v =>
            {| world := w; phase := Failed (TransportError v);
               attempts := attempts st; log := sent |}
        | Fulfilled response =>
            if business_error response then
              {| world := w; phase := Failed (BusinessError response);
                 attempts := attempts st; log := sent |}
            else
              {| world := w; phase := Polling (get "taskId" response);
                 attempts := attempts st;
                 log := sent ++ [Waited (firstDelay options)] |}
        end
  | Polling taskId =>
      if bool_decide (maxAttempts options ≤ attempts st)%nat then
        Some {| world := world st; phase := TimedOut;
                attempts := attempts st; log := log st |}
      else
        let body := getTaskResult_body options taskId in
        let '(w, r) := transport getTaskResult body (world st) in
        let sent := log st ++ [Sent getTaskResult body] in
        Some
          match r with
          | Pending =>
              {| world := w; phase := Suspended; attempts := attempts st; log := sent |}
          | Rejected v =>
              {| world := w; phase := Failed (TransportError v);
                 attempts := attempts st; log := sent |}
          | Fulfilled response =>
              match poll_reply response with
              | ReplyError =>
                  {| world := w; phase := Failed (BusinessError response);
                     attempts := attempts st; log := sent |}
              | ReplyReady solution =>
                  {| world := w; phase := Ready solution;
                     attempts := attempts st; log := sent |}
              | ReplyNotReady =>
                  {| world := w; phase := Polling taskId;
                     attempts := S (attempts st);
                     log := sent ++ [Waited (pollingInterval options)] |}
              end
          end
  | Ready _ | Failed _ | TimedOut | Suspended => None
  end.

(** At most [fuel] transitions. *)
Fixpoint run (task : TaskRequest) (fuel : nat) (st : State) : State :=
  match fuel with
  | O => st
  | S fuel' =>
      match step task st with
      | Some st' => run task fuel' st'
      | None => st
      end
  end.

Definition start (w : World) : State :=
  {| world := w; phase := Submitting; attempts := 0; log := [] |}.

(** [Solve(task)], watched for [fuel] transitions. *)
Definition Solve (task : TaskRequest) (fuel : nat) (w : World) : State :=
  run task fuel (start w).

Definition settlement (st : State) : option (Settlement (option Json)) :=
  match phase st with
  | Ready solution => Some (Resolves solution)
  | Failed why => Some (RejectsWith why)
  | TimedOut => Some (RejectsWithTimeout (attempts st))
  | Submitting | Polling _ | Suspended => None
  end.

(** The bodies of the requests sent to [method], in order. *)
Fixpoint bodies_sent (method : MethodT) (l : list Event) : list string :=
  match l with
  | [] => []
  | Sent m body :: rest =>
      if bool_decide (m = method) then body :: bodies_sent method rest
      else bodies_sent method rest
  | Waited _ :: rest => bodies_sent method rest
  end.

(** The number of polls so far. *)
Definition polls (l : list Event) : nat :=
  length (bodies_sent getTaskResult l).

(** The counter counts the polls, and stays within the configured maximum. *)
Definition within_budget (st : State) : Prop :=
  match phase st with
  | Submitting => polls (log st) = 0%nat ∧ attempts st = 0%nat
  | Polling _ =>
      polls (log st) = attempts st ∧ (attempts st ≤ maxAttempts options)%nat
  | TimedOut =>
      polls (log st) = attempts st ∧ attempts st = maxAttempts options
  | Ready _ | Failed _ | Suspended => (polls (log st) ≤ maxAttempts options)%nat
  end.



End Orchestrator.

End CapMonsterCloudClient.

(** ** The integration test: a client in front of a mock server *)

Module Integration.
Import Js Json HttpClient CapMonsterCloudClient.

(** The platform of the test runs: the parser above, and chunks that hold
    well-formed UTF-8, which decode to themselves. *)
Definition reference_platform : Platform :=
  {| JSON_parse := Json.parse;
     Buffer_toString_utf8 := String.concat "" |}.

(** A literal of the test, typed with an apostrophe where the test has a
    double quote. *)
Fixpoint js (s : string) : string :=
  match s with
  | EmptyString => EmptyString
  | String c rest =>
      String (if bool_decide (c = "'"%char) then dquote else c) (js rest)
  end.

(** Modelled from the spec: what the mock server of the missing
    [tests/helpers] keeps of a request, [srv.caughtRequests[i]] in the
    test. *)
Record CaughtRequest : Set := { userAgent : string; body : string }.

(** A client instance, the network's script for the successive calls of
    [post], and what the server has caught. *)
Record World : Type := {
  runtime : Runtime;
  script : nat → Exchange;
  posts : nat;
  caughtRequests : list CaughtRequest;
}.

Fixpoint caught (l : list Call) : list CaughtRequest :=
  match l with
  | [] => []
  | Request o data :: rest =>
      {| userAgent := req_user_agent o; body := data |} :: caught rest
  | _ :: rest => caught rest
  end.

(** [HttpClient.post] as the transport of the client. *)
Definition http_transport (P : Platform) (method : MethodT) (data : string)
    (w : World) : World * Promise Json :=
  let r := @post P method data (script w (posts w)) (runtime w) in
  ({| runtime := fst r; script := script w; posts := S (posts w);
      caughtRequests := caughtRequests w ++ caught (calls (snd r)) |},
   outcome (snd r)).

(** Modelled from the spec: a response of the mock server of the missing
    [tests/helpers], a 200 with a JSON content type and the scripted body in
    one chunk. *)
Definition mock_response (responseBody : string) : IncomingMessage :=
  {| statusCode := Some 200; statusMessage := Some "OK";
     content_type := Some "application/json";
     chunks := [responseBody]; stream_error := None |}.

(** Modelled from the spec: [createServerMock({ responses })] of the missing
    [tests/helpers]. The i-th request gets the i-th body; a request beyond
    the script gets no response. *)
Definition scripted (responses : list string) (i : nat) : Exchange :=
  {| first_event := connect;
     reply := match responses !! i with
              | Some b => Responds (mock_response b)
              | None => RequestFails {| node_message := "socket hang up" |}
              end |}.

Definition createServerMock (responses : list string) (u : ClientURL) : World :=
  {| runtime := Transport.boot u; script := scripted responses; posts := 0;
     caughtRequests := [] |}.

(** A server whose task never gets ready: the first response creates the
    task, every later one says that it is being processed. *)
Definition busy_server (u : ClientURL) : World :=
  {| runtime := Transport.boot u;
     script := λ i,
       {| first_event := connect;
          reply := Responds (mock_response
                     match i with
                     | O => js "{'errorId':0,'taskId':7654321}"
                     | S _ => js "{'errorId':0,'status':'processing'}"
                     end) |};
     posts := 0; caughtRequests := [] |}.

(** The network answers the next [post] of [w] with a connected socket and
    the mock response that carries [text]. *)
Definition answers_with (text : string) (w : World) : Prop :=
  script w (posts w) =
    {| first_event := connect; reply := Responds (mock_response text) |}.

(** The script is the one of [busy_server] and the task has been created. *)
Definition still_busy (u : ClientURL) (w : World) : Prop :=
  script w = script (busy_server u) ∧ (1 ≤ posts w)%nat.

Definition localhost : ClientURL :=
  {| clientPort := 8080; hostname := "localhost"; host := "localhost"; port := 8080 |}.

(** Three responses that the chain turns down: a server error, a page of
    HTML, and a body that is not JSON under a JSON content type. *)
Definition server_error : IncomingMessage :=
  {| statusCode := Some 500; statusMessage := Some "Internal Server Error";
     content_type := Some "application/json"; chunks := []; stream_error := None |}.

Definition html_page : IncomingMessage :=
  {| statusCode := Some 200; statusMessage := Some "OK";
     content_type := Some "text/html"; chunks := ["<html>"; "</html>"];
     stream_error := None |}.

Definition truncated_json : IncomingMessage :=
  mock_response (js "{'errorId':0,'bal").

(** A refused connection, as [net] reports it. *)
Definition econnrefused : NodeError :=
  {| node_message := "connect ECONNREFUSED 127.0.0.1:8080" |}.

(** An instance whose first [post] has just opened a socket, and the same
    once the socket has connected. *)
Definition connecting_client : Runtime := fst (netConnectOrUse (Transport.boot localhost)).

Definition connected_client : Runtime := emit 0%nat connect connecting_client.

(** The two servers of the integration test. *)
Definition balance_server : World :=
  createServerMock [js "{'errorId':0,'balance':345.678}"] localhost.


Definition test_options : ClientOptions :=
  {| clientKey := "<your capmonster.cloud API key>";
     serviceUrl := "http://localhost:8080";
     pollingInterval := 2000; firstDelay := 1000; maxAttempts := 5 |}.

Definition recaptchaV2ProxylessRequest : TaskRequest :=
  RecaptchaV2ProxylessRequest
    "https://lessons.zennolab.com/captchas/recaptcha/v2_simple.php?level=high"
    "6Lcg7CMUAAAAANphynKgn9YAgA4tQ2KI_iqRyTwd".

End Integration.

(** ** What a caller can observe of a call *)

Module Observe.
Import Js Json HttpClient Transport Integration.

(** The response passes the status check and the content-type check of a
    call that expects [expected]. *)
Definition passes (expected : Expected) (res : IncomingMessage) : Prop :=
  statusCode res = Some 200 ∧
  ∃ contentType, content_type res = Some contentType ∧
                 accepted expected contentType = true.

(** The media types that a call expects. *)
Definition expected_types (expected : Expected) : list ResponseContentType :=
  match expected with
  | One t => [t]
  | Many ts => ts
  end.

(** The requests among the steps of a call. *)
Fixpoint requests (l : list Call) : list (RequestOptions * string) :=
  match l with
  | [] => []
  | Request o data :: rest => (o, data) :: requests rest
  | _ :: rest => requests rest
  end.

(** The steps of a [postJSON] call that runs to its end, in order. *)
Definition stages `{P : Platform} (c : HttpClient) (method : MethodT)
    (data : string) (res : IncomingMessage) : list Call :=
  [Request (request_options c method) data; StatusCheck; ContentTypeCheck;
   BodyRead; JsonParse (Buffer_toString_utf8 (chunks res))].

(** The agent that the [connect] listener builds on socket [s]. *)
Definition agent_on (s : Socket) (c : HttpClient) : Agent :=
  {| agent_socket := s; keepAlive := true; agent_timeout := timeout c |}.

(** The stored socket and the socket of the stored agent are sockets that
    the instance has opened, and the agent is a keep-alive agent. *)
Definition well_formed (rt : Runtime) : Prop :=
  (∀ s, _socket (this rt) = Some s → (s < length (net rt))%nat) ∧
  (∀ a, _agent (this rt) = Some a →
        (agent_socket a < length (net rt))%nat ∧ keepAlive a = true).

(** Every socket was dialled to the port and the host name of [u], which is
    still the URL of the instance. *)
Definition dials_only (u : ClientURL) (rt : Runtime) : Prop :=
  url (this rt) = u ∧
  ∀ s d, net rt !! s = Some d →
         dial_port d = clientPort u ∧ dial_host d = hostname u.

(** A response in plain text, and a JSON response whose stream breaks. *)
Definition text_page : IncomingMessage :=
  {| statusCode := Some 200; statusMessage := Some "OK";
     content_type := Some "text/plain; charset=utf-8"; chunks := ["po"; "ng"];
     stream_error := None |}.

Definition broken_stream : IncomingMessage :=
  {| statusCode := Some 200; statusMessage := Some "OK";
     content_type := Some "application/json"; chunks := [];
     stream_error := Some {| node_message := "aborted" |} |}.

(** An instance whose first socket was refused and whose second socket is
    still connecting; the listeners of the first socket are still there. *)
Definition reconnecting_client : Runtime :=
  exec_all [CallNetConnectOrUse; Emit 0%nat (error econnrefused); CallNetConnectOrUse]
           (boot localhost).

End Observe.

(** * Properties *)

Import Js Json HttpClient Transport CapMonsterCloudClient Integration.

(** ** Strings and classes *)

Lemma startsWith_app (sub rest : string) : startsWith (sub +:+ rest) sub = true.
Proof.
  induction sub as [|a sub IH]; simpl.
  - reflexivity.
  - rewrite bool_decide_eq_true_2 by reflexivity. exact IH.
Qed.

Lemma startsWith_split (s sub : string) :
  startsWith s sub = true → ∃ rest, s = sub +:+ rest.
Proof.
  revert s. induction sub as [|a sub IH]; intros s H.
  - exists s. reflexivity.
  - destruct s as [|b s]; simpl in H; [discriminate|].
    apply andb_true_iff in H as [Hab Hrest].
    apply bool_decide_eq_true_1 in Hab. subst b.
    destruct (IH s Hrest) as [rest ->]. exists rest. reflexivity.
Qed.

Lemma includes_head (s sub : string) :
  startsWith s sub = true → includes s sub = true.
Proof. intros H. destruct s; simpl; rewrite H; reflexivity. Qed.

(** [includes] is the substring test: [s] is some text, then [sub], then some
    text. *)
Lemma includes_spec (s sub : string) :
  includes s sub = true ↔ ∃ before after, s = before +:+ sub +:+ after.
Proof.
  split.
  - induction s as [|c s IH]; simpl; intros H.
    + rewrite orb_false_r in H. apply startsWith_split in H as [rest ->].
      exists "", rest. reflexivity.
    + apply orb_true_iff in H as [H|H].
      * apply startsWith_split in H as [rest ->]. exists "", rest. reflexivity.
      * destruct (IH H) as (before & after & ->).
        exists (String c before), after. reflexivity.
  - intros (before & after & ->).
    induction before as [|c before IH].
    + change (includes (sub +:+ after) sub = true).
      apply includes_head, startsWith_app.
    + change (includes (String c (before +:+ sub +:+ after)) sub = true).
      simpl. rewrite IH. apply orb_true_r.
Qed.

(** [JSONParseError] and the classes under [HttpClientError] have no class
    in common but [Error]. *)
Lemma JSONParseError_apart (k : ErrorClass) :
  extends k HttpClientError = true →
  extends k JSONParseError = false ∧ extends JSONParseError k = false.
Proof. destruct k; vm_compute; intros H; try discriminate H; split; reflexivity. Qed.

(** ** The socket and the agent *)

Lemma netConnect_registers (rt : Runtime) :
  ∃ d, net (fst (netConnect rt)) !! length (net rt) = Some d ∧ connecting d = Pending.
Proof.
  eexists. split.
  - simpl. rewrite lookup_app_r by lia. rewrite Nat.sub_diag. reflexivity.
  - reflexivity.
Qed.

Lemma netConnectOrUse_reuse (rt : Runtime) :
  is_Some (_socket (this rt)) → netConnectOrUse rt = (rt, Promise_resolve).
Proof. intros [s Hs]. unfold netConnectOrUse. rewrite Hs. reflexivity. Qed.

Lemma netConnectOrUse_fresh (rt : Runtime) :
  _socket (this rt) = None → netConnectOrUse rt = netConnect rt.
Proof. intros Hs. unfold netConnectOrUse. rewrite Hs. reflexivity. Qed.

Lemma netConnectOrUse_has_socket (rt : Runtime) :
  is_Some (_socket (this (fst (netConnectOrUse rt)))).
Proof.
  unfold netConnectOrUse. destruct (_socket (this rt)) as [s|] eqn:Hs; simpl.
  - rewrite Hs. eauto.
  - eauto.
Qed.

(** What the listeners do to the two fields. *)
Lemma emit_this (s : Socket) (ev : SocketEvent) (rt : Runtime) (d : Dial) :
  net rt !! s = Some d →
  this (emit s ev rt) =
    match ev with
    | error _ | close _ => with_agent None (with_socket None (this rt))
    | connect =>
        match _socket (this rt) with
        | Some cur =>
            with_agent (Some {| agent_socket := cur; keepAlive := true;
                                agent_timeout := timeout (this rt) |}) (this rt)
        | None => this rt
        end
    end.
Proof.
  intros Hd. unfold emit. rewrite Hd.
  destruct ev; try reflexivity. destruct (_socket (this rt)); reflexivity.
Qed.

Lemma emit_unknown (s : Socket) (ev : SocketEvent) (rt : Runtime) :
  net rt !! s = None → emit s ev rt = rt.
Proof. intros Hd. unfold emit. rewrite Hd. reflexivity. Qed.

(** What the listeners do to the promise of their own [netConnect] call. *)
Lemma emit_promise (s : Socket) (ev : SocketEvent) (rt : Runtime) (d : Dial) :
  net rt !! s = Some d →
  promise_state (emit s ev rt) (OfNetConnect s) =
    match ev with
    | error err => reject (Native err) (connecting d)
    | close hadError => reject (Boolean hadError) (connecting d)
    | connect =>
        match _socket (this rt) with
        | Some _ => resolve () (connecting d)
        | None => reject Undefined (connecting d)
        end
    end.
Proof.
  intros Hd. pose proof (lookup_lt_Some _ _ _ Hd) as Hlt.
  unfold promise_state, emit. rewrite Hd.
  destruct ev; simpl.
  - rewrite list_lookup_insert_eq by exact Hlt. reflexivity.
  - rewrite list_lookup_insert_eq by exact Hlt. reflexivity.
  - destruct (_socket (this rt)); simpl;
      rewrite list_lookup_insert_eq by exact Hlt; reflexivity.
Qed.

(** Each operation keeps the agent behind a socket. *)
Lemma exec_agent_needs_socket (op : Op) (rt : Runtime) :
  agent_needs_socket (this rt) → agent_needs_socket (this (exec op rt)).
Proof.
  unfold agent_needs_socket. intros Inv. destruct op as [| |s ev]; simpl.
  - intros _. eauto.
  - intros _. apply netConnectOrUse_has_socket.
  - destruct (net rt !! s) as [d|] eqn:Hd.
    + rewrite (emit_this s ev rt d Hd). destruct ev; simpl.
      * intros [a Ha]. discriminate Ha.
      * intros [a Ha]. discriminate Ha.
      * destruct (_socket (this rt)) as [cur|] eqn:Hs; simpl.
        -- rewrite Hs. eauto.
        -- rewrite Hs. exact Inv.
    + rewrite emit_unknown by exact Hd. exact Inv.
Qed.

Lemma exec_all_agent_needs_socket (ops : list Op) (rt : Runtime) :
  agent_needs_socket (this rt) → agent_needs_socket (this (exec_all ops rt)).
Proof.
  revert rt. induction ops as [|op ops IH]; intros rt Inv.
  - exact Inv.
  - apply (IH (exec op rt)), exec_agent_needs_socket, Inv.
Qed.

(** Through the public entry, the agent is even bound to the stored socket. *)
Lemma exec_agent_on_socket (op : Op) (rt : Runtime) :
  op ≠ CallNetConnect →
  agent_on_socket (this rt) → agent_on_socket (this (exec op rt)).
Proof.
  unfold agent_on_socket. intros Hop Inv. destruct op as [| |s ev]; simpl.
  - congruence.
  - unfold netConnectOrUse. destruct (_socket (this rt)) as [cur|] eqn:Hs; simpl.
    + intros a Ha. rewrite Hs. apply Inv, Ha.
    + intros a Ha. specialize (Inv a Ha). discriminate Inv.
  - destruct (net rt !! s) as [d|] eqn:Hd.
    + rewrite (emit_this s ev rt d Hd). destruct ev; simpl.
      * intros a Ha. discriminate Ha.
      * intros a Ha. discriminate Ha.
      * destruct (_socket (this rt)) as [cur|] eqn:Hs; simpl.
        -- intros a Ha. injection Ha as <-. simpl. exact Hs.
        -- intros a Ha. rewrite Hs. apply Inv, Ha.
    + rewrite emit_unknown by exact Hd. exact Inv.
Qed.

Lemma exec_all_agent_on_socket (ops : list Op) (rt : Runtime) :
  CallNetConnect ∉ ops →
  agent_on_socket (this rt) → agent_on_socket (this (exec_all ops rt)).
Proof.
  revert rt. induction ops as [|op ops IH]; intros rt Hpublic Inv.
  - exact Inv.
  - apply not_elem_of_cons in Hpublic as [Hop Hops].
    apply (IH (exec op rt) Hops), exec_agent_on_socket; [congruence | exact Inv].
Qed.

(** Only the [connect] listener sets the agent, and only on the socket that
    is stored when it runs. *)
Lemma exec_sets_agent (op : Op) (rt : Runtime) (a : Agent) :
  _agent (this (exec op rt)) = Some a →
  _agent (this rt) ≠ Some a →
  ∃ s, op = Emit s connect ∧ is_Some (net rt !! s) ∧
       _socket (this rt) = Some (agent_socket a).
Proof.
  intros Hafter Hbefore. destruct op as [| |s ev]; simpl in Hafter.
  - contradiction.
  - unfold netConnectOrUse in Hafter.
    destruct (_socket (this rt)); simpl in Hafter; contradiction.
  - destruct (net rt !! s) as [d|] eqn:Hd.
    + rewrite (emit_this s ev rt d Hd) in Hafter. destruct ev; simpl in Hafter.
      * discriminate Hafter.
      * discriminate Hafter.
      * destruct (_socket (this rt)) as [cur|] eqn:Hs; simpl in Hafter.
        -- injection Hafter as <-. exists s. rewrite Hd. eauto.
        -- contradiction.
    + rewrite emit_unknown in Hafter by exact Hd. contradiction.
Qed.

(** The public [post] acts on the socket state through these operations. *)
Lemma post_exec `{P : Platform} (method : MethodT) (data : string)
    (x : Exchange) (rt : Runtime) :
  fst (post method data x rt) = exec_all (post_ops x rt) rt.
Proof.
  unfold post, post_ops.
  destruct (_socket (this rt)) as [cur|] eqn:Hs.
  - unfold exec_all; simpl. rewrite !netConnectOrUse_reuse by eauto. reflexivity.
  - unfold exec_all; simpl. rewrite !netConnectOrUse_fresh by exact Hs. reflexivity.
Qed.

(** C6. Connect-or-reuse is idempotent: in every state in which a socket is
    stored, [netConnectOrUse] returns an already resolved promise, leaves the
    instance and the list of opened sockets as they are, and so keeps the same
    handle; and whatever the state before, a second call right after a first
    one opens nothing. *)
Theorem C6_connect_or_reuse_is_idempotent (rt : Runtime) (s : Socket) :
  _socket (this rt) = Some s →
  (netConnectOrUse rt = (rt, Promise_resolve) ∧
   promise_state rt Promise_resolve = Fulfilled () ∧
   _socket (this (fst (netConnectOrUse rt))) = Some s ∧
   _agent (this (fst (netConnectOrUse rt))) = _agent (this rt) ∧
   net (fst (netConnectOrUse rt)) = net rt) ∧
  (∀ rt0 : Runtime,
     let rt1 := fst (netConnectOrUse rt0) in
     netConnectOrUse rt1 = (rt1, Promise_resolve) ∧
     length (net (fst (netConnectOrUse rt1))) = length (net rt1)).
Proof.
  intros Hs. split.
  - rewrite netConnectOrUse_reuse by eauto. simpl. auto.
  - intros rt0 rt1.
    rewrite netConnectOrUse_reuse by apply netConnectOrUse_has_socket.
    auto.
Qed.

Lemma C6_connect_or_reuse_is_idempotent_witness :
  netConnectOrUse connected_client = (connected_client, Promise_resolve) ∧
  net (fst (netConnectOrUse connected_client)) = net connected_client.
Proof.
  pose proof (C6_connect_or_reuse_is_idempotent connected_client 0%nat eq_refl)
    as [(Hsame & _ & _ & _ & Hnet) _].
  exact (conj Hsame Hnet).
Defined.

(** C10. In every state that a sequence of transport operations reaches from
    a fresh instance, an agent is stored only if a socket is stored; when
    the sequence goes through [netConnectOrUse] only, as [post] does, the
    stored socket is even the one the agent is bound to. The agent is set
    by no operation but the [connect] listener, which binds it to the socket
    stored at that moment; the [error] and [close] listeners clear the
    socket and the agent together; and [post] acts on the two fields through
    these operations only. *)
Theorem C10_agent_only_with_socket `{P : Platform} (u : ClientURL) (ops : list Op) :
  let rt := exec_all ops (boot u) in
  agent_needs_socket (this rt) ∧
  (CallNetConnect ∉ ops → agent_on_socket (this rt)) ∧
  (∀ op a, _agent (this (exec op rt)) = Some a → _agent (this rt) ≠ Some a →
     ∃ s, op = Emit s connect ∧ is_Some (net rt !! s) ∧
          _socket (this rt) = Some (agent_socket a)) ∧
  (∀ s ev, is_Some (net rt !! s) → ev ≠ connect → cleared (this (emit s ev rt))) ∧
  (∀ method data x,
     fst (post method data x rt) = exec_all (ops ++ post_ops x rt) (boot u)).
Proof.
  intros rt. split; [|split; [|split; [|split]]].
  - apply exec_all_agent_needs_socket. intros [a Ha]. discriminate Ha.
  - intros Hpublic. apply exec_all_agent_on_socket; [exact Hpublic|].
    intros a Ha. discriminate Ha.
  - intros op a. apply exec_sets_agent.
  - intros s ev [d Hd] Hev. rewrite (emit_this s ev rt d Hd).
    destruct ev; [split; reflexivity | split; reflexivity | contradiction].
  - intros method data x. rewrite post_exec. unfold exec_all.
    rewrite foldl_app. reflexivity.
Qed.

Lemma C10_agent_only_with_socket_witness :
  agent_needs_socket
    (this (exec_all [CallNetConnectOrUse; Emit 0%nat connect;
                     Emit 0%nat (close false); CallNetConnectOrUse;
                     Emit 0%nat (error econnrefused); CallNetConnect;
                     Emit 2%nat connect]
                    (boot localhost))).
Proof.
  exact (proj1 (C10_agent_only_with_socket (P := reference_platform) localhost
                  [CallNetConnectOrUse; Emit 0%nat connect;
                   Emit 0%nat (close false); CallNetConnectOrUse;
                   Emit 0%nat (error econnrefused); CallNetConnect;
                   Emit 2%nat connect])).
Defined.




(** ** The validation chain *)

Section Pipeline.
Context `{P : Platform}.

(** The three ways out of [responseContentTypeHandler]. *)
Lemma responseContentTypeHandler_cases (res : IncomingMessage) (expected : Expected) :
  responseContentTypeHandler res expected =
    {| calls := [ContentTypeCheck];
       outcome :=
         match content_type res with
         | Some contentType =>
             if truthy (Some contentType) then
               if accepted expected contentType then Fulfilled res
               else Rejected (NewHttpContentTypeError
                                (Some ("Unexpected content type. Got " +:+ contentType))
                                None)
             else Rejected (NewHttpContentTypeError (Some "Unknown content type") None)
         | None => Rejected (NewHttpContentTypeError (Some "Unknown content type") None)
         end |}.
Proof.
  unfold responseContentTypeHandler, accepted.
  destruct (content_type res) as [[|c ct]|]; try reflexivity.
  cbn [truthy].
  destruct (match expected with
            | One t => includes (String c ct) (media_type t)
            | Many ts => existsb (λ t, includes (String c ct) (media_type t)) ts
            end); reflexivity.
Qed.

Lemma responseStatusHandler_cases (res : IncomingMessage) (expected : Z) :
  responseStatusHandler res expected =
    {| calls := [StatusCheck];
       outcome :=
         if bool_decide (statusCode res = Some expected) then Fulfilled res
         else Rejected (NewHttpStatusError (statusMessage res) (statusCode res)) |}.
Proof.
  unfold responseStatusHandler. case_bool_decide; reflexivity.
Qed.

Lemma requestHandler_responds (c : HttpClient) (method : MethodT) (data : string)
    (res : IncomingMessage) :
  requestHandler c method data (Responds res) =
    {| calls := [Request (request_options c method) data]; outcome := Fulfilled res |}.
Proof. reflexivity. Qed.

(** An [await] of a settled step. *)
Lemma await_fulfilled {A B} (l : list Call) (a : A) (f : A → Async B) :
  {| calls := l; outcome := Fulfilled a |} ≫= f =
    {| calls := l ++ calls (f a); outcome := outcome (f a) |}.
Proof. reflexivity. Qed.

(** C2. A response whose status code is not 200 makes [postJSON] reject with
    an [HttpStatusError] that carries the status message and the status code
    of the response; after the request, only the status check was entered:
    no content-type check, no body read, no JSON decoding. [postText] does
    the same. *)
Theorem C2_non_200_is_status_error
    (c : HttpClient) (method : MethodT) (data : string) (res : IncomingMessage) :
  statusCode res ≠ Some 200 →
  let e := NewHttpStatusError (statusMessage res) (statusCode res) in
  let a := postJSON c method data (Responds res) in
  outcome a = Rejected e ∧
  class_of e = Some HttpStatusError ∧
  calls a = [Request (request_options c method) data; StatusCheck] ∧
  (ContentTypeCheck ∉ calls a) ∧ (BodyRead ∉ calls a) ∧
  (∀ body, JsonParse body ∉ calls a) ∧
  postText c method data (Responds res) =
    {| calls := calls a; outcome := Rejected e |}.
Proof.
  intros Hstatus e a.
  assert (Ha : a = {| calls := [Request (request_options c method) data; StatusCheck];
                      outcome := Rejected e |}).
  { unfold a, postJSON. rewrite requestHandler_responds, await_fulfilled.
    rewrite responseStatusHandler_cases.
    rewrite bool_decide_eq_false_2 by exact Hstatus. reflexivity. }
  rewrite Ha. simpl. repeat split.
  - intros Hin. repeat (apply elem_of_cons in Hin as [Hin|Hin]; [discriminate Hin|]).
    apply elem_of_nil in Hin. exact Hin.
  - intros Hin. repeat (apply elem_of_cons in Hin as [Hin|Hin]; [discriminate Hin|]).
    apply elem_of_nil in Hin. exact Hin.
  - intros body Hin.
    repeat (apply elem_of_cons in Hin as [Hin|Hin]; [discriminate Hin|]).
    apply elem_of_nil in Hin. exact Hin.
  - unfold postText. rewrite requestHandler_responds, await_fulfilled.
    rewrite responseStatusHandler_cases.
    rewrite bool_decide_eq_false_2 by exact Hstatus. reflexivity.
Qed.




(** C4. A 200 response with an accepted content type whose body, once read,
    makes [JSON.parse] throw a [SyntaxError] makes [postJSON] reject with a
    [JSONParseError] that carries the message of the parser and the body as
    it was read. Whatever [JSON.parse] throws, the rejection is a
    [JSONParseError] with that body. Such an error is no instance of
    [HttpClientError], and no error of a class under [HttpClientError] is an
    instance of [JSONParseError]. *)
Theorem C4_unparsable_body_is_JSONParseError
    (c : HttpClient) (method : MethodT) (data : string) (res : IncomingMessage)
    (contentType : string) (cls : ErrorClass) (message : string) :
  statusCode res = Some 200 →
  content_type res = Some contentType →
  truthy (Some contentType) = true →
  accepted (Many [json; text]) contentType = true →
  stream_error res = None →
  JSON_parse (Buffer_toString_utf8 (chunks res)) = Throw cls message →
  let responseBody := Buffer_toString_utf8 (chunks res) in
  ∃ e,
    outcome (postJSON c method data (Responds res)) = Rejected e ∧
    (∃ m, e = NewJSONParseError m responseBody) ∧
    (extends cls SyntaxError = true → e = NewJSONParseError message responseBody) ∧
    instanceof e JSONParseError = true ∧
    instanceof e HttpClientError = false ∧
    (∀ k, extends k HttpClientError = true →
          extends k JSONParseError = false ∧ extends JSONParseError k = false) ∧
    (∀ other, class_of other ≠ Some JSONParseError →
              instanceof other JSONParseError = false).
Proof.
  intros Hstatus Hct Htruthy Haccepted Hstream Hparse responseBody.
  assert (Hrun : outcome (postJSON c method data (Responds res)) =
                 Rejected (NewJSONParseError
                             (if extends cls SyntaxError then message
                              else "Unknown JSON parse error") responseBody)).
  { unfold postJSON.
    rewrite requestHandler_responds, await_fulfilled, responseStatusHandler_cases.
    rewrite bool_decide_eq_true_2 by exact Hstatus.
    rewrite await_fulfilled, responseContentTypeHandler_cases.
    rewrite Hct, Htruthy, Haccepted, await_fulfilled.
    unfold responseJSONHandler, responseBodyHandler. rewrite Hstream. simpl.
    rewrite Hparse.
    destruct (extends cls SyntaxError); reflexivity. }
  eexists. split; [exact Hrun|].
  split; [eauto|]. split; [intros ->; reflexivity|].
  split; [reflexivity|]. split; [reflexivity|].
  split; [exact JSONParseError_apart|].
  intros other Hother. unfold instanceof.
  destruct (class_of other) as [k|]; [|reflexivity].
  destruct k; try reflexivity. contradiction.
Qed.

End Pipeline.

Lemma C2_non_200_is_status_error_witness :
  outcome (postJSON (P := reference_platform) (this connected_client) createTask "{}"
             (Responds server_error))
  = Rejected (NewHttpStatusError (Some "Internal Server Error") (Some 500)).
Proof.
  exact (proj1 (C2_non_200_is_status_error (P := reference_platform)
                  (this connected_client) createTask "{}" server_error
                  ltac:(intros H; discriminate H))).
Defined.


Lemma C4_unparsable_body_is_JSONParseError_witness :
  ∃ e, outcome (postJSON (P := reference_platform) (this connected_client)
                  HttpClient.getBalance "{}" (Responds truncated_json)) = Rejected e ∧
       e = NewJSONParseError "Unexpected token or end of JSON input"
             (js "{'errorId':0,'bal").
Proof.
  destruct (C4_unparsable_body_is_JSONParseError (P := reference_platform)
              (this connected_client) HttpClient.getBalance "{}" truncated_json
              "application/json" SyntaxError "Unexpected token or end of JSON input"
              eq_refl eq_refl eq_refl eq_refl eq_refl eq_refl)
    as (e & Hrun & _ & Hmessage & _).
  exists e. split; [exact Hrun | exact (Hmessage eq_refl)].
Defined.

(** ** The polling loop *)

Section Polling.
Context {World : Type}.
Variable transport : MethodT → string → World → World * Promise Json.
Variable options : ClientOptions.
Variable task : TaskRequest.

Local Abbreviation step := (step transport options task).
Local Abbreviation run := (run transport options task).
Local Abbreviation Solve := (Solve transport options task).

Lemma bodies_sent_app (method : MethodT) (l l' : list Event) :
  bodies_sent method (l ++ l') = bodies_sent method l ++ bodies_sent method l'.
Proof.
  induction l as [|[m body|ms] l IH]; simpl.
  - reflexivity.
  - case_bool_decide; simpl; rewrite IH; reflexivity.
  - exact IH.
Qed.

Lemma polls_app (l l' : list Event) : polls (l ++ l') = (polls l + polls l')%nat.
Proof. unfold polls. rewrite bodies_sent_app. apply length_app. Qed.

Lemma run_stuck (fuel : nat) (st : State) : step st = None → run fuel st = st.
Proof. intros Hstep. destruct fuel; simpl; [|rewrite Hstep]; reflexivity. Qed.

Lemma run_add (a b : nat) (st : State) : run (a + b) st = run b (run a st).
Proof.
  revert st. induction a as [|a IH]; intros st; simpl.
  - reflexivity.
  - destruct (step st) as [st'|] eqn:Hstep.
    + apply IH.
    + rewrite run_stuck by exact Hstep. reflexivity.
Qed.

(** A property that every transition keeps holds all along a run. *)
Lemma run_invariant (I : State → Prop) :
  (∀ st st', I st → step st = Some st' → I st') →
  ∀ fuel st, I st → I (run fuel st).
Proof.
  intros Hstep fuel. induction fuel as [|fuel IH]; intros st Hst; simpl.
  - exact Hst.
  - destruct (step st) as [st'|] eqn:E; [|exact Hst].
    apply IH, (Hstep st st' Hst E).
Qed.

Lemma step_within_budget (st st' : State) :
  within_budget options st → step st = Some st' → within_budget options st'.
Proof.
  unfold within_budget, CapMonsterCloudClient.step. intros Hst Hstep.
  destruct (phase st) as [|taskId| | | |] eqn:Hphase; try discriminate Hstep.
  - destruct Hst as [Hpolls Hattempts].
    destruct (transport createTask _ (world st)) as [w r].
    injection Hstep as <-.
    destruct r as [|response|v]; [| destruct (business_error response) |]; simpl;
      rewrite ?polls_app, Hpolls; unfold polls; simpl; lia.
  - destruct Hst as [Hpolls Hle]. case_bool_decide as Hmax.
    + injection Hstep as <-. simpl. split; [exact Hpolls | lia].
    + destruct (transport getTaskResult _ (world st)) as [w r].
      injection Hstep as <-.
      destruct r as [|response|v]; [| destruct (poll_reply response) |]; simpl;
        rewrite ?polls_app, Hpolls; unfold polls; simpl; lia.
Qed.

(** Whatever the transport answers, a run never polls more often than the
    configured maximum. *)
Lemma polls_bounded (fuel : nat) (w : World) :
  (polls (log (Solve fuel w)) ≤ maxAttempts options)%nat.
Proof.
  assert (H : within_budget options (Solve fuel w)).
  { unfold CapMonsterCloudClient.Solve.
    apply (run_invariant (within_budget options)); [exact step_within_budget|].
    split; reflexivity. }
  unfold within_budget in H.
  destruct (phase (Solve fuel w)); lia.
Qed.

(** From a polling state with [k] attempts left, a result endpoint that
    keeps answering "not ready" is polled [k] more times, and the transition
    after the last wait is the time-out. *)
Lemma polling_times_out (busy : World → Prop) :
  (∀ w body, busy w →
     ∃ w' r, transport getTaskResult body w = (w', Fulfilled r) ∧
             poll_reply r = ReplyNotReady ∧ busy w') →
  ∀ (k : nat) (st : State) (taskId : option Json),
    phase st = Polling taskId →
    busy (world st) →
    (attempts st + k = maxAttempts options)%nat →
    phase (run (S k) st) = TimedOut ∧
    attempts (run (S k) st) = maxAttempts options ∧
    bodies_sent getTaskResult (log (run (S k) st)) =
      bodies_sent getTaskResult (log st) ++
      replicate k (getTaskResult_body options taskId).
Proof.
  intros Hbusy k. induction k as [|k IH]; intros st taskId Hphase Hw Hleft.
  - simpl. unfold CapMonsterCloudClient.step. rewrite Hphase.
    rewrite bool_decide_eq_true_2 by lia. simpl.
    rewrite app_nil_r. repeat split. lia.
  - destruct (Hbusy (world st) (getTaskResult_body options taskId) Hw)
      as (w' & r & Hpost & Hreply & Hw').
    change (run (S (S k)) st) with
      (match step st with Some st' => run (S k) st' | None => st end).
    unfold CapMonsterCloudClient.step. rewrite Hphase.
    rewrite bool_decide_eq_false_2 by lia.
    rewrite Hpost, Hreply.
    match goal with |- context [run (S k) ?next] => set (st1 := next) end.
    destruct (IH st1 taskId eq_refl Hw' ltac:(simpl; lia)) as (Hend & Hcount & Hsent).
    split; [exact Hend|]. split; [exact Hcount|].
    rewrite Hsent. unfold st1. simpl log.
    rewrite !bodies_sent_app. simpl.
    rewrite app_nil_r, <- app_assoc. reflexivity.
Qed.

(** C1. When [createTask] succeeds and the result endpoint answers "not
    ready" to every poll, [Solve] ends in [TimedOut], that is, it rejects
    with the time-out failure, which is none of the other failures, after
    exactly [maxAttempts] polls; more fuel changes nothing, and no prefix of
    the run has more than [maxAttempts] polls. *)
Theorem C1_polling_times_out_after_max_attempts (busy : World → Prop) (w0 : World) :
  (∃ w1 r, transport createTask (createTask_body options task) w0 = (w1, Fulfilled r) ∧
           business_error r = false ∧ busy w1) →
  (∀ w body, busy w →
     ∃ w' r, transport getTaskResult body w = (w', Fulfilled r) ∧
             poll_reply r = ReplyNotReady ∧ busy w') →
  let final := Solve (maxAttempts options + 2) w0 in
  phase final = TimedOut ∧
  settlement final = Some (RejectsWithTimeout (maxAttempts options)) ∧
  (∀ why, settlement final ≠ Some (RejectsWith why)) ∧
  polls (log final) = maxAttempts options ∧
  (∀ fuel, (maxAttempts options + 2 ≤ fuel)%nat → Solve fuel w0 = final) ∧
  (∀ fuel, (polls (log (Solve fuel w0)) ≤ maxAttempts options)%nat).
Proof.
  intros (w1 & r & Hcreate & Hok & Hw1) Hbusy final.
  set (st1 := {| world := w1; phase := Polling (get "taskId" r); attempts := 0;
                 log := [Sent createTask (createTask_body options task);
                         Waited (firstDelay options)] |}).
  assert (Hfirst : step (start w0) = Some st1).
  { unfold CapMonsterCloudClient.step. simpl. rewrite Hcreate, Hok. reflexivity. }
  assert (Hfinal : final = run (S (maxAttempts options)) st1).
  { unfold final, CapMonsterCloudClient.Solve.
    replace (maxAttempts options + 2)%nat with (S (S (maxAttempts options))) by lia.
    change (run (S (S (maxAttempts options))) (start w0)) with
      (match step (start w0) with
       | Some st' => run (S (maxAttempts options)) st'
       | None => start w0
       end).
    rewrite Hfirst. reflexivity. }
  destruct (polling_times_out busy Hbusy (maxAttempts options) st1
              (get "taskId" r) eq_refl Hw1 eq_refl) as (Hend & Hcount & Hsent).
  rewrite <- Hfinal in Hend, Hcount, Hsent.
  assert (Hsettle : settlement final = Some (RejectsWithTimeout (maxAttempts options))).
  { unfold settlement. rewrite Hend, Hcount. reflexivity. }
  split; [exact Hend|]. split; [exact Hsettle|].
  split; [intros why; rewrite Hsettle; discriminate|].
  split.
  { unfold polls. rewrite Hsent. simpl. apply length_replicate. }
  split; [|intros fuel; apply polls_bounded].
  intros fuel Hfuel.
  replace fuel with ((maxAttempts options + 2) + (fuel - (maxAttempts options + 2)))%nat
    by lia.
  unfold CapMonsterCloudClient.Solve. rewrite run_add.
  fold (Solve (maxAttempts options + 2) w0). fold final.
  apply run_stuck. unfold CapMonsterCloudClient.step. rewrite Hend. reflexivity.
Qed.

End Polling.

(** ** The client over [HttpClient.post] *)

Section OverHttp.
Context `{P : Platform}.

(** A response that passes the three checks and parses is the value of
    [postJSON], after the five steps of the chain. *)
Lemma postJSON_accepts (c : HttpClient) (method : MethodT) (data : string)
    (res : IncomingMessage) (contentType : string) (v : Json) :
  statusCode res = Some 200 →
  content_type res = Some contentType →
  truthy (Some contentType) = true →
  accepted (Many [json; text]) contentType = true →
  stream_error res = None →
  JSON_parse (Buffer_toString_utf8 (chunks res)) = Normal v →
  postJSON c method data (Responds res) =
    {| calls := [Request (request_options c method) data; StatusCheck;
                 ContentTypeCheck; BodyRead;
                 JsonParse (Buffer_toString_utf8 (chunks res))];
       outcome := Fulfilled v |}.
Proof.
  intros Hstatus Hct Htruthy Haccepted Hstream Hparse.
  unfold postJSON.
  rewrite requestHandler_responds, await_fulfilled, responseStatusHandler_cases.
  rewrite bool_decide_eq_true_2 by exact Hstatus.
  rewrite await_fulfilled, responseContentTypeHandler_cases.
  rewrite Hct, Htruthy, Haccepted, await_fulfilled.
  unfold responseJSONHandler, responseBodyHandler. rewrite Hstream. simpl.
  rewrite Hparse. reflexivity.
Qed.

(** When the socket of a [post] connects, or is there already, the call goes
    on with [postJSON] on the instance as the connection left it. *)
Lemma post_connected (method : MethodT) (data : string) (x : Exchange) (rt : Runtime) :
  first_event x = connect →
  snd (post method data x rt) =
    postJSON (this (fst (post method data x rt))) method data (reply x).
Proof.
  intros Hx. unfold post.
  destruct (_socket (this rt)) as [cur|] eqn:Hs.
  - rewrite netConnectOrUse_reuse by eauto. simpl.
    destruct (postJSON (this rt) method data (reply x)); reflexivity.
  - rewrite netConnectOrUse_fresh by exact Hs.
    destruct (netConnect_registers rt) as (d & Hd & Hpending).
    unfold netConnect in *. simpl fst in *. cbv zeta. rewrite Hx.
    match goal with |- context [emit ?s connect ?r] => set (rt1 := r) in * end.
    cbn [snd fst].
    rewrite (emit_promise (length (net rt)) connect rt1 d Hd), Hpending.
    simpl.
    destruct (postJSON _ method data (reply x)); reflexivity.
Qed.

(** The headers of an instance are those it was given. *)
Lemma exec_headers (op : Op) (rt : Runtime) :
  defaultRequestHeaders (this (exec op rt)) = defaultRequestHeaders (this rt).
Proof.
  destruct op as [| |s ev]; simpl.
  - reflexivity.
  - unfold netConnectOrUse. destruct (_socket (this rt)); reflexivity.
  - unfold emit. destruct (net rt !! s); [|reflexivity].
    destruct ev; try reflexivity. destruct (_socket (this rt)); reflexivity.
Qed.

Lemma post_headers (method : MethodT) (data : string) (x : Exchange) (rt : Runtime) :
  defaultRequestHeaders (this (fst (post method data x rt))) =
  defaultRequestHeaders (this rt).
Proof.
  rewrite post_exec. unfold post_ops, exec_all.
  destruct (_socket (this rt)); cbn [foldl]; rewrite !exec_headers; reflexivity.
Qed.

(** One call of the transport against a mock response. *)
Lemma http_transport_mock (method : MethodT) (data text : string) (v : Json)
    (w : World) :
  answers_with text w →
  JSON_parse (Buffer_toString_utf8 [text]) = Normal v →
  ∃ rt, http_transport P method data w =
          ({| runtime := rt; script := script w; posts := S (posts w);
              caughtRequests :=
                caughtRequests w ++
                [{| userAgent :=
                      UserAgent (defaultRequestHeaders (this (runtime w)));
                    body := data |}] |},
           Fulfilled v).
Proof.
  intros Hscript Hparse. unfold answers_with in Hscript.
  unfold http_transport. rewrite Hscript.
  rewrite post_connected by reflexivity. cbn [reply].
  rewrite (postJSON_accepts _ method data (mock_response text) "application/json" v)
    by (try reflexivity; exact Hparse).
  eexists. cbn [calls outcome caught request_options req_user_agent].
  rewrite post_headers. reflexivity.
Qed.

End OverHttp.

Lemma busy_server_not_ready (u : ClientURL) (w : World) (body : string) :
  still_busy u w →
  ∃ w' r, http_transport reference_platform getTaskResult body w = (w', Fulfilled r) ∧
          poll_reply r = ReplyNotReady ∧ still_busy u w'.
Proof.
  intros [Hscript Hposts].
  destruct (http_transport_mock (P := reference_platform) getTaskResult body
              (js "{'errorId':0,'status':'processing'}")
              (JObject [("errorId", JNumber (of_Z 0)); ("status", JString "processing")])
              w) as [rt Hpost].
  - unfold answers_with. rewrite Hscript. simpl.
    destruct (posts w); [lia | reflexivity].
  - vm_compute. reflexivity.
  - eexists. eexists. split; [exact Hpost|]. split; [vm_compute; reflexivity|].
    split; simpl; [exact Hscript | lia].
Qed.

Lemma C1_polling_times_out_after_max_attempts_witness :
  let final := Solve (http_transport reference_platform) test_options
                 recaptchaV2ProxylessRequest 7 (busy_server localhost) in
  phase final = TimedOut ∧ polls (log final) = 5%nat.
Proof.
  destruct (C1_polling_times_out_after_max_attempts
              (http_transport reference_platform) test_options
              recaptchaV2ProxylessRequest (still_busy localhost)
              (busy_server localhost))
    as (Hend & _ & _ & Hpolls & _).
  - eexists. eexists. split; [vm_compute; reflexivity|].
    split; [vm_compute; reflexivity|]. split; [reflexivity | simpl; lia].
  - intros w body. apply busy_server_not_ready.
  - exact (conj Hend Hpolls).
Defined.

(** ** The request bodies *)

Lemma append_assoc (a b c : string) : (a +:+ b) +:+ c = a +:+ b +:+ c.
Proof.
  induction a as [|x a IH]; [reflexivity|].
  change (String x ((a +:+ b) +:+ c) = String x (a +:+ b +:+ c)).
  f_equal. exact IH.
Qed.

Lemma getBalance_body_shape (options : ClientOptions) :
  getBalance_body options = js "{'clientKey':" +:+ quote (clientKey options) +:+ "}".
Proof.
  unfold getBalance_body.
  change (stringify (JObject [("clientKey", JString (clientKey options))]))
    with ("{" +:+ (quote "clientKey" +:+ ":" +:+ quote (clientKey options)) +:+ "}").
  rewrite !append_assoc. reflexivity.
Qed.




Section Bodies.
Context {World : Type}.
Variable transport : MethodT → string → World → World * Promise Json.
Variable options : ClientOptions.
Variable task : TaskRequest.

Local Abbreviation step := (step transport options task).
Local Abbreviation run := (run transport options task).
Local Abbreviation Solve := (Solve transport options task).







End Bodies.

(** C9. Over [HttpClient.post], for every body that the platform parses to
    a response without a business error, [getBalance] resolves with that
    response, so that its [balance] is the parsed one, and the one request
    the server catches is the client key alone. For the body of the
    integration test the balance is 345.678 and the request is the text the
    test expects. *)
Theorem C9_getBalance_returns_parsed_balance `{P : Platform}
    (options : ClientOptions) (u : ClientURL) (text : string) (response : Json) :
  JSON_parse (Buffer_toString_utf8 [text]) = Normal response →
  business_error response = false →
  let run := getBalance (http_transport P) options (createServerMock [text] u) in
  snd run = Some (Resolves response) ∧
  (∀ v, snd run = Some (Resolves v) → get "balance" v = get "balance" response) ∧
  Integration.body <$> caughtRequests (fst (fst run)) = [getBalance_body options] ∧
  getBalance_body options =
    js "{'clientKey':" +:+ quote (clientKey options) +:+ "}" ∧
  (let test := getBalance (http_transport reference_platform) test_options
                 balance_server in
   (∃ v, snd test = Some (Resolves v) ∧
         get "balance" v = Some (JNumber {| mant := 345678; expo := -3 |})) ∧
   Integration.body <$> caughtRequests (fst (fst test))
     = [js "{'clientKey':'<your capmonster.cloud API key>'}"]).
Proof.
  intros Hparse Hok run.
  destruct (http_transport_mock HttpClient.getBalance (getBalance_body options)
              text response (createServerMock [text] u) eq_refl Hparse)
    as [rt Hpost].
  assert (Hrun : run = ({| runtime := rt;
                           script := script (createServerMock [text] u);
                           posts := 1;
                           caughtRequests :=
                             [{| userAgent := ""; body := getBalance_body options |}] |},
                        [Sent HttpClient.getBalance (getBalance_body options)],
                        Some (Resolves response))).
  { unfold run, getBalance. rewrite Hpost, Hok. reflexivity. }
  rewrite Hrun. simpl.
  split; [reflexivity|].
  split; [intros v Hv; injection Hv as <-; reflexivity|].
  split; [reflexivity|].
  split; [apply getBalance_body_shape|].
  vm_compute. split; [eexists; split; reflexivity | reflexivity].
Qed.



Lemma C9_getBalance_returns_parsed_balance_witness :
  snd (getBalance (http_transport reference_platform) test_options balance_server)
  = Some (Resolves (JObject [("errorId", JNumber (of_Z 0));
                             ("balance", JNumber {| mant := 345678; expo := -3 |})])).
Proof.
  exact (proj1 (C9_getBalance_returns_parsed_balance (P := reference_platform)
                  test_options localhost (js "{'errorId':0,'balance':345.678}")
                  (JObject [("errorId", JNumber (of_Z 0));
                            ("balance", JNumber {| mant := 345678; expo := -3 |})])
                  eq_refl eq_refl)).
Defined.

(** * Further properties of [HttpClient.ts] *)

Import Observe.

(** ** The outcomes of the validation chain *)

Section Outcomes.
Context `{P : Platform}.

(** No media type occurs in the empty header. *)
Lemma accepted_nonempty (expected : Expected) (contentType : string) :
  accepted expected contentType = true → truthy (Some contentType) = true.
Proof.
  destruct contentType as [|a rest]; [|reflexivity].
  destruct expected as [t|ts]; simpl.
  - destruct t; discriminate.
  - induction ts as [|t ts IH]; simpl; [discriminate|].
    destruct t; exact IH.
Qed.

Lemma not_accepted_unexpected (types : list ResponseContentType)
    (contentType : string) :
  accepted (Many types) contentType = false →
  ∀ t, t ∈ types → includes contentType (media_type t) = false.
Proof.
  simpl. induction types as [|t0 types IH]; intros Hnone t Hin.
  - apply elem_of_nil in Hin. contradiction.
  - simpl in Hnone. apply orb_false_iff in Hnone as [Hhere Hrest].
    apply elem_of_cons in Hin as [-> | Hin]; [exact Hhere | exact (IH Hrest t Hin)].
Qed.

(** The whole of [postJSON], one case for each way out. *)
Lemma postJSON_cases (c : HttpClient) (method : MethodT) (data : string)
    (reply : NetReply) :
  postJSON c method data reply =
    let request := Request (request_options c method) data in
    match reply with
    | RequestFails err => {| calls := [request]; outcome := Rejected (Native err) |}
    | Responds res =>
        let body := Buffer_toString_utf8 (chunks res) in
        if bool_decide (statusCode res = Some 200) then
          match content_type res with
          | Some contentType =>
              if truthy (Some contentType) then
                if accepted (Many [json; text]) contentType then
                  match stream_error res with
                  | Some err =>
                      {| calls := [request; StatusCheck; ContentTypeCheck; BodyRead];
                         outcome := Rejected (Native err) |}
                  | None =>
                      {| calls := [request; StatusCheck; ContentTypeCheck; BodyRead;
                                   JsonParse body];
                         outcome :=
                           match JSON_parse body with
                           | Normal v => Fulfilled v
                           | Throw cls message =>
                               Rejected
                                 (NewJSONParseError
                                    (if extends cls SyntaxError then message
                                     else "Unknown JSON parse error") body)
                           end |}
                  end
                else
                  {| calls := [request; StatusCheck; ContentTypeCheck];
                     outcome :=
                       Rejected (NewHttpContentTypeError
                                   (Some ("Unexpected content type. Got " +:+ contentType))
                                   None) |}
              else
                {| calls := [request; StatusCheck; ContentTypeCheck];
                   outcome := Rejected (NewHttpContentTypeError
                                          (Some "Unknown content type") None) |}
          | None =>
              {| calls := [request; StatusCheck; ContentTypeCheck];
                 outcome := Rejected (NewHttpContentTypeError
                                        (Some "Unknown content type") None) |}
          end
        else
          {| calls := [request; StatusCheck];
             outcome := Rejected (NewHttpStatusError (statusMessage res) (statusCode res)) |}
    end.
Proof.
  destruct reply as [res|err]; [|reflexivity].
  cbv zeta. unfold postJSON.
  rewrite requestHandler_responds, await_fulfilled, responseStatusHandler_cases.
  case_bool_decide; [|reflexivity].
  rewrite await_fulfilled, responseContentTypeHandler_cases.
  destruct (content_type res) as [contentType|]; [|reflexivity].
  destruct (truthy (Some contentType)); [|reflexivity].
  destruct (accepted (Many [json; text]) contentType); [|reflexivity].
  rewrite await_fulfilled.
  unfold responseJSONHandler, responseBodyHandler.
  destruct (stream_error res) as [err|]; [reflexivity|]. simpl.
  destruct (JSON_parse (Buffer_toString_utf8 (chunks res))) as [v|cls message];
    [reflexivity|].
  destruct (extends cls SyntaxError); reflexivity.
Qed.

(** The whole of [postText]. *)
Lemma postText_cases (c : HttpClient) (method : MethodT) (data : string)
    (reply : NetReply) :
  postText c method data reply =
    let request := Request (request_options c method) data in
    match reply with
    | RequestFails err => {| calls := [request]; outcome := Rejected (Native err) |}
    | Responds res =>
        if bool_decide (statusCode res = Some 200) then
          match content_type res with
          | Some contentType =>
              if truthy (Some contentType) then
                if accepted (One text) contentType then
                  {| calls := [request; StatusCheck; ContentTypeCheck; BodyRead];
                     outcome :=
                       match stream_error res with
                       | Some err => Rejected (Native err)
                       | None => Fulfilled (Buffer_toString_utf8 (chunks res))
                       end |}
                else
                  {| calls := [request; StatusCheck; ContentTypeCheck];
                     outcome :=
                       Rejected (NewHttpContentTypeError
                                   (Some ("Unexpected content type. Got " +:+ contentType))
                                   None) |}
              else
                {| calls := [request; StatusCheck; ContentTypeCheck];
                   outcome := Rejected (NewHttpContentTypeError
                                          (Some "Unknown content type") None) |}
          | None =>
              {| calls := [request; StatusCheck; ContentTypeCheck];
                 outcome := Rejected (NewHttpContentTypeError
                                        (Some "Unknown content type") None) |}
          end
        else
          {| calls := [request; StatusCheck];
             outcome := Rejected (NewHttpStatusError (statusMessage res) (statusCode res)) |}
    end.
Proof.
  destruct reply as [res|err]; [|reflexivity].
  cbv zeta. unfold postText.
  rewrite requestHandler_responds, await_fulfilled, responseStatusHandler_cases.
  case_bool_decide; [|reflexivity].
  rewrite await_fulfilled, responseContentTypeHandler_cases.
  destruct (content_type res) as [contentType|]; [|reflexivity].
  destruct (truthy (Some contentType)); [|reflexivity].
  destruct (accepted (One text) contentType); [|reflexivity].
  rewrite await_fulfilled.
  unfold responseTextHandler, responseBodyHandler.
  destruct (stream_error res) as [err|]; reflexivity.
Qed.

(** X1. [postJSON] resolves with [v] exactly when a response arrives with
    status 200 and an accepted content type, its stream ends without an
    error, and [JSON.parse] of the decoded chunks returns [v]. *)
Theorem postJSON_resolves_iff (c : HttpClient) (method : MethodT) (data : string)
    (reply : NetReply) (v : Json) :
  outcome (postJSON c method data reply) = Fulfilled v ↔
  ∃ res, reply = Responds res ∧ passes (Many [json; text]) res ∧
         stream_error res = None ∧
         JSON_parse (Buffer_toString_utf8 (chunks res)) = Normal v.
Proof.
  rewrite postJSON_cases. cbv zeta. split.
  - destruct reply as [res|err]; [|discriminate].
    case_bool_decide as Hstatus; [|discriminate].
    destruct (content_type res) as [contentType|] eqn:Hct; [|discriminate].
    destruct (truthy (Some contentType)); [|discriminate].
    destruct (accepted (Many [json; text]) contentType) eqn:Hacc; [|discriminate].
    destruct (stream_error res) as [err|] eqn:Hstream; [discriminate|].
    simpl. destruct (JSON_parse _) as [v'|cls message] eqn:Hparse; [|discriminate].
    intros Hv. injection Hv as ->.
    exists res. split; [reflexivity|]. split; [|split; [exact Hstream | exact Hparse]].
    split; [exact Hstatus|]. exists contentType. split; [exact Hct | exact Hacc].
  - intros (res & -> & (Hstatus & contentType & Hct & Hacc) & Hstream & Hparse).
    rewrite bool_decide_eq_true_2 by exact Hstatus.
    rewrite Hct, (accepted_nonempty _ _ Hacc), Hacc, Hstream. simpl.
    rewrite Hparse. reflexivity.
Qed.

(** X2. [postJSON] always settles, and each rejection tells its cause: an
    error object of the platform comes from the request or from the stream
    of a response that passed both checks; an [HttpStatusError] carries the
    message and the code of a response whose code is not 200; an
    [HttpContentTypeError] has no status code and one of two messages, for a
    missing header and for a header without an expected media type; a
    [JSONParseError] carries the decoded body, and the message of the
    [SyntaxError] or else a fixed one. It rejects with nothing else. *)
Theorem postJSON_rejection_causes (c : HttpClient) (method : MethodT)
    (data : string) (reply : NetReply) :
  outcome (postJSON c method data reply) ≠ Pending ∧
  ∀ e, outcome (postJSON c method data reply) = Rejected e →
    match e with
    | Native err =>
        reply = RequestFails err ∨
        ∃ res, reply = Responds res ∧ passes (Many [json; text]) res ∧
               stream_error res = Some err
    | NewHttpStatusError message code =>
        ∃ res, reply = Responds res ∧ statusCode res ≠ Some 200 ∧
               message = statusMessage res ∧ code = statusCode res
    | NewHttpContentTypeError message code =>
        ∃ res, reply = Responds res ∧ statusCode res = Some 200 ∧
               unexpected [json; text] (content_type res) ∧ code = None ∧
               message = Some (if truthy (content_type res)
                               then "Unexpected content type. Got " +:+
                                    default "" (content_type res)
                               else "Unknown content type")
    | NewJSONParseError message responseBody =>
        ∃ res cls thrown,
          reply = Responds res ∧ passes (Many [json; text]) res ∧
          stream_error res = None ∧
          responseBody = Buffer_toString_utf8 (chunks res) ∧
          JSON_parse responseBody = Throw cls thrown ∧
          message = (if extends cls SyntaxError then thrown
                     else "Unknown JSON parse error")
    | Boolean _ | Undefined => False
    end.
Proof.
  rewrite postJSON_cases. cbv zeta.
  destruct reply as [res|err].
  2:{ split; [discriminate|]. intros e He. injection He as <-. left. reflexivity. }
  case_bool_decide as Hstatus.
  2:{ split; [discriminate|]. intros e He. injection He as <-.
      exists res. repeat split. exact Hstatus. }
  destruct (content_type res) as [contentType|] eqn:Hct.
  2:{ split; [discriminate|]. intros e He. injection He as <-.
      exists res. split; [reflexivity|]. split; [exact Hstatus|].
      rewrite Hct. split; [left; reflexivity|]. split; reflexivity. }
  destruct (truthy (Some contentType)) eqn:Htruthy.
  2:{ split; [discriminate|]. intros e He. injection He as <-.
      exists res. split; [reflexivity|]. split; [exact Hstatus|].
      rewrite Hct, Htruthy. split; [left; exact Htruthy|]. split; reflexivity. }
  destruct (accepted (Many [json; text]) contentType) eqn:Hacc.
  2:{ split; [discriminate|]. intros e He. injection He as <-.
      exists res. split; [reflexivity|]. split; [exact Hstatus|].
      rewrite Hct, Htruthy. split; [|split; reflexivity].
      right. exists contentType. split; [reflexivity|].
      apply not_accepted_unexpected, Hacc. }
  assert (Hpass : passes (Many [json; text]) res).
  { split; [exact Hstatus|]. exists contentType. split; [exact Hct | exact Hacc]. }
  destruct (stream_error res) as [err|] eqn:Hstream.
  { split; [discriminate|]. intros e He. injection He as <-.
    right. exists res. split; [reflexivity|]. split; [exact Hpass | exact Hstream]. }
  simpl. destruct (JSON_parse _) as [v|cls thrown] eqn:Hparse.
  { split; discriminate. }
  split; [discriminate|]. intros e He. injection He as <-.
  exists res, cls, thrown. split; [reflexivity|]. split; [exact Hpass|].
  split; [exact Hstream|]. split; [reflexivity|]. split; [exact Hparse | reflexivity].
Qed.

(** X3. Whatever the network does, [postJSON] sends one request and no
    second one; the steps it enters are a prefix of request, status check,
    content-type check, body read, JSON parsing, in this order; and it gets
    to the parsing exactly when the response passed both checks and its
    stream ended without an error. *)
Theorem postJSON_steps_in_order (c : HttpClient) (method : MethodT)
    (data : string) (reply : NetReply) :
  requests (calls (postJSON c method data reply)) =
    [(request_options c method, data)] ∧
  ∀ res, reply = Responds res →
    calls (postJSON c method data reply) `prefix_of` stages c method data res ∧
    (calls (postJSON c method data reply) = stages c method data res ↔
     passes (Many [json; text]) res ∧ stream_error res = None).
Proof.
  destruct reply as [res|err]; [|split; [reflexivity | discriminate]].
  split.
  { rewrite postJSON_cases. cbv zeta.
    case_bool_decide; [|reflexivity].
    destruct (content_type res) as [contentType|]; [|reflexivity].
    destruct (truthy (Some contentType)); [|reflexivity].
    destruct (accepted (Many [json; text]) contentType); [|reflexivity].
    destruct (stream_error res); reflexivity. }
  intros res' [= <-]. rewrite postJSON_cases. cbv zeta. unfold stages, passes.
  case_bool_decide as Hstatus.
  2:{ split; [eexists; reflexivity|].
      split; [discriminate | intros [[Hok _] _]; contradiction]. }
  destruct (content_type res) as [contentType|] eqn:Hct.
  2:{ split; [eexists; reflexivity|].
      split; [discriminate | intros [(_ & ct & Hsome & _) _]; discriminate]. }
  destruct (truthy (Some contentType)) eqn:Htruthy.
  2:{ split; [eexists; reflexivity|].
      split; [discriminate|]. intros [(_ & ct & Hsome & Hacc) _].
      injection Hsome as <-.
      rewrite (accepted_nonempty _ _ Hacc) in Htruthy. discriminate. }
  destruct (accepted (Many [json; text]) contentType) eqn:Hacc.
  2:{ split; [eexists; reflexivity|].
      split; [discriminate|]. intros [(_ & ct & Hsome & Hacc') _].
      injection Hsome as <-. congruence. }
  destruct (stream_error res) as [err|] eqn:Hstream.
  { split; [eexists; reflexivity|].
    split; [discriminate | intros [_ Hnone]; discriminate]. }
  split; [reflexivity|]. split; [|reflexivity].
  intros _. split; [|reflexivity].
  split; [exact Hstatus|]. exists contentType. split; [reflexivity | exact Hacc].
Qed.

(** X4. [postText] never parses: no call of it enters the JSON step. It
    resolves exactly when a response arrives with status 200 and a content
    type that contains [text/plain] and its stream ends without an error,
    and then with the decoded chunks as they are. Every response that passes
    the checks of [postText] passes those of [postJSON]. *)
Theorem postText_never_parses (c : HttpClient) (method : MethodT) (data : string)
    (reply : NetReply) :
  (∀ body, JsonParse body ∉ calls (postText c method data reply)) ∧
  (∀ t, outcome (postText c method data reply) = Fulfilled t ↔
        ∃ res, reply = Responds res ∧ passes (One text) res ∧
               stream_error res = None ∧ t = Buffer_toString_utf8 (chunks res)) ∧
  (∀ res, passes (One text) res → passes (Many [json; text]) res).
Proof.
  split; [|split].
  - intros body. rewrite postText_cases. cbv zeta.
    assert (Hno : ∀ l, Forall (λ x, x ≠ JsonParse body) l → JsonParse body ∉ l).
    { intros l Hl Hin. rewrite List.Forall_forall in Hl.
      apply (Hl _ (proj1 (list_elem_of_In _ _) Hin)). reflexivity. }
    destruct reply as [res|err]; [|apply Hno; repeat constructor; discriminate].
    case_bool_decide; [|apply Hno; repeat constructor; discriminate].
    destruct (content_type res) as [contentType|];
      [|apply Hno; repeat constructor; discriminate].
    destruct (truthy (Some contentType));
      [|apply Hno; repeat constructor; discriminate].
    destruct (accepted (One text) contentType);
      apply Hno; repeat constructor; discriminate.
  - intros t. rewrite postText_cases. cbv zeta. unfold passes. split.
    + destruct reply as [res|err]; [|discriminate].
      case_bool_decide as Hstatus; [|discriminate].
      destruct (content_type res) as [contentType|] eqn:Hct; [|discriminate].
      destruct (truthy (Some contentType)); [|discriminate].
      destruct (accepted (One text) contentType) eqn:Hacc; [|discriminate].
      simpl. destruct (stream_error res) as [err|] eqn:Hstream; [discriminate|].
      intros [= <-]. exists res. split; [reflexivity|].
      split; [|split; [exact Hstream | reflexivity]].
      split; [exact Hstatus|]. exists contentType. split; [exact Hct | exact Hacc].
    + intros (res & -> & (Hstatus & contentType & Hct & Hacc) & Hstream & ->).
      rewrite bool_decide_eq_true_2 by exact Hstatus.
      rewrite Hct, (accepted_nonempty _ _ Hacc), Hacc, Hstream. reflexivity.
  - intros res (Hstatus & contentType & Hct & Hacc).
    split; [exact Hstatus|]. exists contentType. split; [exact Hct|].
    simpl in *. rewrite Hacc. apply orb_true_r.
Qed.

(** X5. A rejection of [postJSON] is an instance of [HttpClientError]
    exactly when a response arrived and was turned down by the status check
    or by the content-type check. So a handler for [HttpClientError] sees
    neither the errors of the request and of the stream nor a body that
    does not parse. *)
Theorem HttpClientError_iff_response_turned_down (c : HttpClient)
    (method : MethodT) (data : string) (reply : NetReply) (e : Thrown) :
  outcome (postJSON c method data reply) = Rejected e →
  (instanceof e HttpClientError = true ↔
   ∃ res, reply = Responds res ∧ ¬ passes (Many [json; text]) res).
Proof.
  rewrite postJSON_cases. cbv zeta. unfold passes.
  destruct reply as [res|err].
  2:{ intros [= <-]. split; [intros H; vm_compute in H; discriminate H|].
      intros (res & Hres & _). discriminate Hres. }
  case_bool_decide as Hstatus.
  2:{ intros [= <-]. split; [|reflexivity]. intros _. exists res.
      split; [reflexivity | intros [Hok _]; contradiction]. }
  destruct (content_type res) as [contentType|] eqn:Hct.
  2:{ intros [= <-]. split; [|reflexivity]. intros _. exists res.
      split; [reflexivity | intros (_ & ct & Hsome & _); congruence]. }
  destruct (truthy (Some contentType)) eqn:Htruthy.
  2:{ intros [= <-]. split; [|reflexivity]. intros _. exists res.
      split; [reflexivity|]. intros (_ & ct & Hsome & Hacc).
      rewrite Hct in Hsome. injection Hsome as <-.
      rewrite (accepted_nonempty _ _ Hacc) in Htruthy. discriminate. }
  destruct (accepted (Many [json; text]) contentType) eqn:Hacc.
  2:{ intros [= <-]. split; [|reflexivity]. intros _. exists res.
      split; [reflexivity|]. intros (_ & ct & Hsome & Hacc').
      rewrite Hct in Hsome. injection Hsome as <-. congruence. }
  assert (Hpass : ∀ res', Responds res = Responds res' →
                    statusCode res' = Some 200 ∧
                    ∃ ct, content_type res' = Some ct ∧
                          accepted (Many [json; text]) ct = true).
  { intros res' [= <-]. split; [exact Hstatus|]. exists contentType.
    split; [exact Hct | exact Hacc]. }
  destruct (stream_error res) as [err|].
  { intros [= <-]. split; [intros H; vm_compute in H; discriminate H|].
    intros (res' & Hres & Hnot). destruct (Hnot (Hpass res' Hres)). }
  simpl. destruct (JSON_parse _) as [v|cls thrown]; [discriminate|].
  intros [= <-]. split; [intros H; vm_compute in H; discriminate H|].
  intros (res' & Hres & Hnot). destruct (Hnot (Hpass res' Hres)).
Qed.

(** X6. The content-type check is a substring test: the handler lets a
    response through exactly when its header is there and contains, at any
    place, one of the expected media types as written. Parameters after the
    media type do not matter. *)
Theorem responseContentTypeHandler_is_a_substring_test (res : IncomingMessage)
    (expected : Expected) :
  (outcome (responseContentTypeHandler res expected) = Fulfilled res ↔
   ∃ contentType t before after,
     content_type res = Some contentType ∧ t ∈ expected_types expected ∧
     contentType = before +:+ media_type t +:+ after) ∧
  (∀ t parameters,
     t ∈ expected_types expected →
     content_type res = Some (media_type t +:+ parameters) →
     outcome (responseContentTypeHandler res expected) = Fulfilled res).
Proof.
  assert (Hacc : ∀ contentType,
            accepted expected contentType = true ↔
            ∃ t before after, t ∈ expected_types expected ∧
                              contentType = before +:+ media_type t +:+ after).
  { intros contentType. destruct expected as [t|ts]; simpl.
    - rewrite includes_spec. split.
      + intros (before & after & ->). exists t, before, after.
        split; [apply list_elem_of_here | reflexivity].
      + intros (t' & before & after & Hin & ->).
        apply list_elem_of_singleton in Hin as ->. eauto.
    - induction ts as [|t0 ts IH]; simpl.
      + split; [discriminate|]. intros (t & _ & _ & Hin & _).
        apply elem_of_nil in Hin. contradiction.
      + rewrite orb_true_iff, includes_spec, IH. split.
        * intros [(before & after & ->) | (t & before & after & Hin & ->)].
          -- exists t0, before, after. split; [apply list_elem_of_here | reflexivity].
          -- exists t, before, after.
             split; [apply list_elem_of_further, Hin | reflexivity].
        * intros (t & before & after & Hin & ->).
          apply elem_of_cons in Hin as [-> | Hin]; [left; eauto | right; eauto]. }
  assert (Hmain : outcome (responseContentTypeHandler res expected) = Fulfilled res ↔
                  ∃ contentType, content_type res = Some contentType ∧
                                 accepted expected contentType = true).
  { rewrite responseContentTypeHandler_cases. cbn [outcome]. split.
    - destruct (content_type res) as [contentType|]; [|discriminate].
      destruct (truthy (Some contentType)); [|discriminate].
      destruct (accepted expected contentType) eqn:E; [|discriminate].
      intros _. exists contentType. split; [reflexivity | exact E].
    - intros (contentType & -> & Hok).
      rewrite (accepted_nonempty _ _ Hok), Hok. reflexivity. }
  split.
  - rewrite Hmain. split.
    + intros (contentType & Hct & Hok). apply Hacc in Hok as (t & before & after & Hin & ->).
      exists (before +:+ media_type t +:+ after), t, before, after. auto.
    + intros (contentType & t & before & after & Hct & Hin & ->).
      eexists. split; [exact Hct|]. apply Hacc. eauto.
  - intros t parameters Hin Hct. apply Hmain. eexists. split; [exact Hct|].
    apply Hacc. exists t, "", parameters. split; [exact Hin | reflexivity].
Qed.

End Outcomes.

(** ** [post] and the connection *)

Section Posting.
Context `{P : Platform}.

Lemma await_unit {A} (k : Async A) :
  ({| calls := []; outcome := Fulfilled () |};; k) = k.
Proof. destruct k; reflexivity. Qed.

Lemma requests_postJSON (c : HttpClient) (method : MethodT) (data : string)
    (reply : NetReply) :
  requests (calls (postJSON c method data reply)) = [(request_options c method, data)].
Proof.
  rewrite postJSON_cases. cbv zeta.
  destruct reply as [res|err]; [|reflexivity].
  case_bool_decide; [|reflexivity].
  destruct (content_type res) as [contentType|]; [|reflexivity].
  destruct (truthy (Some contentType)); [|reflexivity].
  destruct (accepted (Many [json; text]) contentType); [|reflexivity].
  destruct (stream_error res); reflexivity.
Qed.


(** With a socket stored, [post] is [postJSON] on the instance as it is. *)
Lemma post_reuse (method : MethodT) (data : string) (x : Exchange) (rt : Runtime) :
  is_Some (_socket (this rt)) →
  post method data x rt = (rt, postJSON (this rt) method data (reply x)).
Proof.
  intros Hs. unfold post. rewrite netConnectOrUse_reuse by exact Hs.
  cbn [promise_state]. rewrite await_unit. reflexivity.
Qed.

(** Without one, [post] opens a socket, and what it does next hangs on the
    first event of that socket. *)
Lemma post_fresh (method : MethodT) (data : string) (x : Exchange) (rt : Runtime) :
  _socket (this rt) = None →
  let s := length (net rt) in
  let rt2 := emit s (first_event x) (fst (netConnect rt)) in
  post method data x rt =
    (rt2,
     {| calls := []; outcome := promise_state rt2 (OfNetConnect s) |};;
     postJSON (this rt2) method data (reply x)).
Proof.
  intros Hs. unfold post. rewrite netConnectOrUse_fresh by exact Hs. reflexivity.
Qed.

Lemma netConnect_socket (rt : Runtime) :
  _socket (this (fst (netConnect rt))) = Some (length (net rt)).
Proof. reflexivity. Qed.

(** No event opens a socket. *)
Lemma emit_keeps_length (s : Socket) (ev : SocketEvent) (rt : Runtime) :
  length (net (emit s ev rt)) = length (net rt).
Proof.
  unfold emit. destruct (net rt !! s) as [d|]; [|reflexivity].
  destruct ev; simpl; try apply length_insert.
  destruct (_socket (this rt)); simpl; apply length_insert.
Qed.

(** The state that [netConnect] leaves, after the first event of the new
    socket. *)
Lemma emit_after_netConnect (ev : SocketEvent) (rt : Runtime) :
  let s := length (net rt) in
  let rt2 := emit s ev (fst (netConnect rt)) in
  length (net rt2) = S s ∧
  this rt2 =
    match ev with
    | connect => with_agent (Some (agent_on s (this rt))) (with_socket (Some s) (this rt))
    | _ => with_agent None (with_socket None (this rt))
    end ∧
  promise_state rt2 (OfNetConnect s) =
    match rejection_of ev with
    | Some v => Rejected v
    | None => Fulfilled ()
    end.
Proof.
  cbv zeta.
  destruct (netConnect_registers rt) as (d & Hd & Hpending).
  split; [|split].
  - rewrite emit_keeps_length. unfold netConnect. simpl.
    rewrite length_app. simpl. lia.
  - rewrite (emit_this _ ev _ d Hd). destruct ev; reflexivity.
  - rewrite (emit_promise _ ev _ d Hd), Hpending.
    destruct ev; reflexivity.
Qed.

(** X7. When [post] has to open a socket and the first event of that socket
    is [error] or [close], [post] rejects with the argument of the event and
    sends no request; the socket and the agent are cleared, one socket more
    has been opened, and the next call opens yet another one. *)
Theorem post_fails_before_any_request (method : MethodT) (data : string)
    (x : Exchange) (rt : Runtime) (v : Thrown) :
  _socket (this rt) = None →
  rejection_of (first_event x) = Some v →
  let after := fst (post method data x rt) in
  snd (post method data x rt) = {| calls := []; outcome := Rejected v |} ∧
  cleared (this after) ∧
  length (net after) = S (length (net rt)) ∧
  _socket (this (fst (netConnectOrUse after))) = Some (S (length (net rt))).
Proof.
  intros Hs Hev. rewrite (post_fresh method data x rt Hs). cbv zeta. cbn [fst snd].
  destruct (emit_after_netConnect (first_event x) rt) as (Hlen & Hthis & Hp).
  cbv zeta in Hlen, Hthis, Hp. rewrite Hev in Hp.
  assert (Hclear : cleared (this (emit (length (net rt)) (first_event x)
                                    (fst (netConnect rt))))).
  { rewrite Hthis. destruct (first_event x); [split; reflexivity.. | discriminate Hev]. }
  split; [rewrite Hp; reflexivity|]. split; [exact Hclear|]. split; [exact Hlen|].
  rewrite netConnectOrUse_fresh by exact (proj1 Hclear).
  rewrite netConnect_socket, Hlen. reflexivity.
Qed.


(** X9. With a socket stored, [post] does not look at whether that socket
    has connected: it opens nothing, leaves the instance as it is, ignores
    the events of the network, and sends its one request with the agent
    as stored, which is none while the socket is still connecting. *)
Theorem post_on_stored_socket_does_not_wait (method : MethodT) (data : string)
    (x : Exchange) (rt : Runtime) (s : Socket) :
  _socket (this rt) = Some s →
  post method data x rt = (rt, postJSON (this rt) method data (reply x)) ∧
  requests (calls (snd (post method data x rt))) =
    [(request_options (this rt) method, data)] ∧
  req_agent (request_options (this rt) method) = _agent (this rt).
Proof.
  intros Hs. rewrite (post_reuse method data x rt) by eauto. cbn [snd].
  split; [reflexivity|]. split; [apply requests_postJSON | reflexivity].
Qed.


End Posting.

(** ** The listeners over time *)

Lemma emit_other (s s' : Socket) (ev : SocketEvent) (rt : Runtime) :
  s ≠ s' → net (emit s ev rt) !! s' = net rt !! s'.
Proof.
  intros Hne. unfold emit. destruct (net rt !! s) as [d|]; [|reflexivity].
  destruct ev; simpl; try (apply list_lookup_insert_ne; exact Hne).
  destruct (_socket (this rt)); simpl; apply list_lookup_insert_ne; exact Hne.
Qed.

(** A settled promise is not settled again. *)
Lemma with_connecting_settled (outcome : Promise ()) (d : Dial) :
  connecting d ≠ Pending → with_connecting (settle outcome (connecting d)) d = d.
Proof.
  destruct d as [p h c]. unfold with_connecting, settle. simpl.
  destruct c; [contradiction | reflexivity..].
Qed.

Lemma exec_keeps_settled (op : Op) (rt : Runtime) (s : Socket) (d : Dial) :
  net rt !! s = Some d → connecting d ≠ Pending → net (exec op rt) !! s = Some d.
Proof.
  intros Hd Hset. destruct op as [| |s' ev]; simpl.
  - apply lookup_app_l_Some, Hd.
  - unfold netConnectOrUse. destruct (_socket (this rt)); simpl; [exact Hd|].
    apply lookup_app_l_Some, Hd.
  - destruct (decide (s' = s)) as [->|Hne]; [|rewrite emit_other by exact Hne; exact Hd].
    pose proof (lookup_lt_Some _ _ _ Hd) as Hlt.
    unfold emit. rewrite Hd.
    destruct ev; simpl;
      try (rewrite list_lookup_insert_eq by exact Hlt;
           unfold reject; rewrite with_connecting_settled by exact Hset; reflexivity).
    destruct (_socket (this rt)); simpl;
      rewrite list_lookup_insert_eq by exact Hlt;
      unfold reject, resolve; rewrite with_connecting_settled by exact Hset;
      reflexivity.
Qed.

Lemma exec_grows (op : Op) (rt : Runtime) :
  (length (net rt) ≤ length (net (exec op rt)))%nat.
Proof.
  destruct op as [| |s ev]; simpl.
  - rewrite length_app. lia.
  - unfold netConnectOrUse. destruct (_socket (this rt)); simpl;
      rewrite ?length_app; lia.
  - rewrite emit_keeps_length. lia.
Qed.

(** X11. The listeners of a socket stay on it after the instance has moved
    on: an [error] or [close] event of an earlier socket clears the fields
    while they hold a later socket that is still connecting; when that
    later socket then connects, its listener finds no socket stored, makes
    no agent and rejects the pending [netConnect] with [undefined]. *)
Theorem stale_listener_clears_the_new_socket
    (rt : Runtime) (old new : Socket) (d_old d_new : Dial)
    (ev : SocketEvent) (v : Thrown) :
  old ≠ new →
  net rt !! old = Some d_old →
  net rt !! new = Some d_new →
  _socket (this rt) = Some new →
  connecting d_new = Pending →
  rejection_of ev = Some v →
  let rt1 := emit old ev rt in
  let rt2 := emit new connect rt1 in
  cleared (this rt1) ∧
  promise_state rt1 (OfNetConnect new) = Pending ∧
  cleared (this rt2) ∧
  promise_state rt2 (OfNetConnect new) = Rejected Undefined.
Proof.
  intros Hne Hold Hnew Hstored Hpending Hev rt1 rt2.
  assert (Hclear : cleared (this rt1)).
  { unfold rt1. rewrite (emit_this old ev rt d_old Hold).
    destruct ev; [split; reflexivity.. | discriminate Hev]. }
  assert (Hnew1 : net rt1 !! new = Some d_new).
  { unfold rt1. rewrite emit_other by exact Hne. exact Hnew. }
  split; [exact Hclear|].
  split; [unfold promise_state; rewrite Hnew1; exact Hpending|].
  split.
  - unfold rt2. rewrite (emit_this new connect rt1 d_new Hnew1).
    rewrite (proj1 Hclear). exact Hclear.
  - unfold rt2. rewrite (emit_promise new connect rt1 d_new Hnew1).
    rewrite (proj1 Hclear), Hpending. reflexivity.
Qed.

(** X12. Once the promise of a [netConnect] call has settled, no later call
    and no later event changes it, nor the port and host that were dialled;
    and the list of opened sockets only grows. *)
Theorem connect_promise_settles_once (ops : list Op) (rt : Runtime)
    (s : Socket) (d : Dial) :
  net rt !! s = Some d →
  connecting d ≠ Pending →
  net (exec_all ops rt) !! s = Some d ∧
  promise_state (exec_all ops rt) (OfNetConnect s) = connecting d ∧
  (length (net rt) ≤ length (net (exec_all ops rt)))%nat.
Proof.
  revert rt. induction ops as [|op ops IH]; intros rt Hd Hset.
  - unfold promise_state. simpl. rewrite Hd. auto.
  - destruct (IH (exec op rt) (exec_keeps_settled op rt s d Hd Hset) Hset)
      as (Hkeep & Hp & Hlen).
    split; [exact Hkeep|]. split; [exact Hp|].
    pose proof (exec_grows op rt). unfold exec_all in *. simpl. lia.
Qed.

(** X13. Under every sequence of connecting calls and socket events on a
    fresh instance, every socket it opens is dialled to the port and the
    host name of the URL it was made with, and no call or listener changes
    that URL. *)
Theorem every_socket_dials_the_configured_host (u : ClientURL) (ops : list Op) :
  dials_only u (exec_all ops (boot u)).
Proof.
  assert (Hstep : ∀ op rt, dials_only u rt → dials_only u (exec op rt)).
  { intros op rt [Hurl Hdials].
    assert (Hconnect : dials_only u (fst (netConnect rt))).
    { split; [exact Hurl|]. intros s d. simpl. intros Hd.
      apply lookup_app_Some in Hd as [Hd | [_ Hd]]; [exact (Hdials s d Hd)|].
      apply list_lookup_singleton_Some in Hd as [_ <-]. simpl.
      rewrite Hurl. split; reflexivity. }
    destruct op as [| |s ev]; simpl.
    - exact Hconnect.
    - unfold netConnectOrUse. destruct (_socket (this rt));
        [split; [exact Hurl | exact Hdials] | exact Hconnect].
    - unfold emit. destruct (net rt !! s) as [d0|] eqn:Hd0;
        [|split; [exact Hurl | exact Hdials]].
      assert (Hins : ∀ p s' d, <[s := with_connecting p d0]> (net rt) !! s' = Some d →
                       dial_port d = clientPort u ∧ dial_host d = hostname u).
      { intros p s' d Hd. destruct (decide (s = s')) as [<-|Hne].
        - rewrite list_lookup_insert_eq in Hd by exact (lookup_lt_Some _ _ _ Hd0).
          injection Hd as <-. exact (Hdials s d0 Hd0).
        - rewrite list_lookup_insert_ne in Hd by exact Hne. exact (Hdials s' d Hd). }
      destruct ev; [split; [exact Hurl | apply Hins].. |].
      destruct (_socket (this rt)); split; try exact Hurl; apply Hins. }
  assert (Hall : ∀ rt, dials_only u rt → dials_only u (exec_all ops rt)).
  { induction ops as [|op ops IH]; intros rt Hrt; [exact Hrt|].
    apply (IH (exec op rt)), Hstep, Hrt. }
  apply Hall. split; [reflexivity|]. intros s d Hd. discriminate Hd.
Qed.

(** X14. Under every sequence of connecting calls and socket events on a
    fresh instance, the stored socket and the socket of the stored agent are
    sockets that the instance has opened, and the stored agent is a
    keep-alive agent. *)
Theorem stored_handles_are_opened_sockets (u : ClientURL) (ops : list Op) :
  well_formed (exec_all ops (boot u)).
Proof.
  assert (Hstep : ∀ op rt, well_formed rt → well_formed (exec op rt)).
  { intros op rt Hrt. pose proof Hrt as [Hsock Hagent].
    assert (Hconnect : well_formed (fst (netConnect rt))).
    { split; simpl.
      - intros s [= <-]. rewrite length_app. simpl. lia.
      - intros a Ha. destruct (Hagent a Ha) as (Hlt & Hkeep).
        rewrite length_app. simpl. split; [lia | exact Hkeep]. }
    destruct op as [| |s ev]; simpl.
    - exact Hconnect.
    - destruct (_socket (this rt)) as [cur|] eqn:Hs.
      + rewrite netConnectOrUse_reuse by (rewrite Hs; eauto). exact Hrt.
      + rewrite netConnectOrUse_fresh by exact Hs. exact Hconnect.
    - destruct (net rt !! s) as [d|] eqn:Hd;
        [|rewrite emit_unknown by exact Hd; exact Hrt].
      clear Hsock Hagent. destruct Hrt as [Hsock Hagent].
      split; rewrite emit_keeps_length, (emit_this s ev rt d Hd).
      + destruct ev; simpl; try discriminate.
        destruct (_socket (this rt)) as [cur|] eqn:Hs; simpl.
        * rewrite Hs. intros s' [= <-]. apply Hsock. reflexivity.
        * rewrite Hs. discriminate.
      + destruct ev; simpl; try discriminate.
        destruct (_socket (this rt)) as [cur|] eqn:Hs; simpl; [|exact Hagent].
        intros a [= <-]. simpl. split; [apply Hsock; reflexivity | reflexivity]. }
  assert (Hall : ∀ rt, well_formed rt → well_formed (exec_all ops rt)).
  { induction ops as [|op ops IH]; intros rt Hrt; [exact Hrt|].
    apply (IH (exec op rt)), Hstep, Hrt. }
  apply Hall. split; simpl; intros ? Hnone; discriminate Hnone.
Qed.

(** ** The error classes *)

(** X15. The classes of the file form a tree under [Error]: [extends] is
    reflexive, transitive and antisymmetric, and every class extends
    [Error]. So a test for a class also holds for what extends it: the
    status and content-type errors are [HttpClientError]s, and every error
    object this file rejects with is an [Error]. *)
Theorem error_classes_form_a_tree (a b c : ErrorClass) (v : Thrown) :
  extends a a = true ∧
  extends a Error = true ∧
  (extends a b = true → extends b c = true → extends a c = true) ∧
  (extends a b = true → extends b a = true → a = b) ∧
  (instanceof v a = true → extends a b = true → instanceof v b = true) ∧
  (instanceof v HttpStatusError = true ∨ instanceof v HttpContentTypeError = true →
   instanceof v HttpClientError = true) ∧
  (is_Some (class_of v) → instanceof v Error = true).
Proof.
  split; [destruct a; reflexivity|]. split; [destruct a; reflexivity|].
  split; [destruct a, b, c; vm_compute; congruence|].
  split; [destruct a, b; vm_compute; congruence|].
  split; [destruct v, a, b; vm_compute; congruence|].
  split; [destruct v; vm_compute; intros [H|H]; congruence|].
  destruct v; vm_compute; intros [k Hk]; congruence.
Qed.

(** ** The further properties at work *)

Lemma postJSON_resolves_iff_witness :
  outcome (postJSON (P := reference_platform) (this connected_client) createTask "{}"
             (Responds (mock_response (js "{'errorId':0,'taskId':7654321}"))))
  = Fulfilled (JObject [("errorId", JNumber (of_Z 0));
                        ("taskId", JNumber (of_Z 7654321))]).
Proof.
  apply (proj2 (postJSON_resolves_iff (P := reference_platform) _ _ _ _ _)).
  eexists. split; [reflexivity|]. split; [|split; reflexivity].
  split; [reflexivity|]. eexists. split; reflexivity.
Defined.

Lemma postJSON_rejection_causes_witness :
  ∃ res, Responds server_error = Responds res ∧ statusCode res ≠ Some 200 ∧
         Some "Internal Server Error" = statusMessage res ∧ Some 500 = statusCode res.
Proof.
  exact (proj2 (postJSON_rejection_causes (P := reference_platform)
                  (this connected_client) createTask "{}" (Responds server_error))
               (NewHttpStatusError (Some "Internal Server Error") (Some 500)) eq_refl).
Defined.

Lemma postJSON_steps_in_order_witness :
  calls (postJSON (P := reference_platform) (this connected_client) createTask "{}"
           (Responds html_page))
  `prefix_of` stages (P := reference_platform) (this connected_client) createTask "{}"
                html_page.
Proof.
  exact (proj1 (proj2 (postJSON_steps_in_order (P := reference_platform)
                         (this connected_client) createTask "{}" (Responds html_page))
                      html_page eq_refl)).
Defined.

Lemma postText_never_parses_witness :
  outcome (postText (P := reference_platform) (this connected_client)
             HttpClient.getBalance "{}" (Responds text_page)) = Fulfilled "pong".
Proof.
  apply (proj2 (proj1 (proj2 (postText_never_parses (P := reference_platform)
                                (this connected_client) HttpClient.getBalance "{}"
                                (Responds text_page))) "pong")).
  exists text_page. split; [reflexivity|]. split; [|split; reflexivity].
  split; [reflexivity|]. eexists. split; reflexivity.
Defined.

Lemma HttpClientError_iff_response_turned_down_witness :
  instanceof (NewHttpContentTypeError (Some "Unexpected content type. Got text/html") None)
             HttpClientError = true ↔
  ∃ res, Responds html_page = Responds res ∧ ¬ passes (Many [json; text]) res.
Proof.
  exact (HttpClientError_iff_response_turned_down (P := reference_platform)
           (this connected_client) createTask "{}" (Responds html_page)
           (NewHttpContentTypeError (Some "Unexpected content type. Got text/html") None)
           eq_refl).
Defined.

Lemma responseContentTypeHandler_is_a_substring_test_witness :
  outcome (responseContentTypeHandler text_page (One text)) = Fulfilled text_page.
Proof.
  apply (proj2 (responseContentTypeHandler_is_a_substring_test text_page (One text))
               text "; charset=utf-8").
  - apply list_elem_of_here.
  - reflexivity.
Defined.

Lemma post_fails_before_any_request_witness :
  snd (post (P := reference_platform) createTask "{}"
         {| first_event := error econnrefused; reply := Responds server_error |}
         (boot localhost))
  = {| calls := []; outcome := Rejected (Native econnrefused) |}.
Proof.
  exact (proj1 (post_fails_before_any_request (P := reference_platform) createTask "{}"
                  {| first_event := error econnrefused; reply := Responds server_error |}
                  (boot localhost) (Native econnrefused) eq_refl eq_refl)).
Defined.


Lemma post_on_stored_socket_does_not_wait_witness :
  promise_state connecting_client (OfNetConnect 0%nat) = Pending ∧
  requests (calls (snd (post (P := reference_platform) createTask "{}"
                          {| first_event := connect; reply := Responds server_error |}
                          connecting_client)))
  = [(request_options (this connecting_client) createTask, "{}")] ∧
  req_agent (request_options (this connecting_client) createTask) = None.
Proof.
  pose proof (post_on_stored_socket_does_not_wait (P := reference_platform)
                createTask "{}"
                {| first_event := connect; reply := Responds server_error |}
                connecting_client 0%nat eq_refl)
    as (_ & Hone & Hagent).
  exact (conj eq_refl (conj Hone Hagent)).
Defined.


Lemma stale_listener_clears_the_new_socket_witness :
  let rt2 := emit 1%nat connect (emit 0%nat (close true) reconnecting_client) in
  _socket (this reconnecting_client) = Some 1%nat ∧
  cleared (this rt2) ∧
  promise_state rt2 (OfNetConnect 1%nat) = Rejected Undefined.
Proof.
  pose proof (stale_listener_clears_the_new_socket reconnecting_client 0%nat 1%nat
                {| dial_port := 8080; dial_host := "localhost";
                   connecting := Rejected (Native econnrefused) |}
                {| dial_port := 8080; dial_host := "localhost"; connecting := Pending |}
                (close true) (Boolean true)
                ltac:(discriminate) eq_refl eq_refl eq_refl eq_refl eq_refl)
    as (_ & _ & Hclear & Hp).
  exact (conj eq_refl (conj Hclear Hp)).
Defined.

Lemma connect_promise_settles_once_witness :
  promise_state
    (exec_all [Emit 0%nat (error econnrefused); CallNetConnectOrUse;
               Emit 0%nat (close true)] connected_client)
    (OfNetConnect 0%nat)
  = Fulfilled ().
Proof.
  exact (proj1 (proj2 (connect_promise_settles_once
                         [Emit 0%nat (error econnrefused); CallNetConnectOrUse;
                          Emit 0%nat (close true)]
                         connected_client 0%nat
                         {| dial_port := 8080; dial_host := "localhost";
                            connecting := Fulfilled () |}
                         eq_refl ltac:(discriminate)))).
Defined.

Lemma error_classes_form_a_tree_witness :
  instanceof (NewHttpStatusError (Some "Internal Server Error") (Some 500))
             HttpClientError = true.
Proof.
  exact (proj1 (proj2 (proj2 (proj2 (proj2
           (error_classes_form_a_tree HttpStatusError HttpClientError Error
              (NewHttpStatusError (Some "Internal Server Error") (Some 500)))))))
           eq_refl eq_refl).
Defined.
